(** * createjs.Shape and createjs.Bitmap: display-object leaves

    A shallow embedding of [src/createjs/shape.js] (the Shape leaf followed by
    the Bitmap leaf) and the properties of its bounding boxes, draw-parameter
    buffer, attach/detach life cycle and hit-test memo.

    Objects that the JavaScript code shares by reference and mutates
    ([createjs.Rectangle], [createjs.Graphics]) live in a store indexed by
    locations; fields that hold them hold locations.  Calls into collaborators
    (owners, the image factory, the renderer, the composer, the probe canvas)
    are appended to a trace, so that "how often" and "not at all" can be
    stated.  JavaScript numbers are taken at their integer values ([Z]); the
    32-bit operators wrap as in the language, a difference of two numbers is
    rounded as a double is, and a slot of the [Float32Array] buffer holds the
    float32 nearest to the number written to it. *)

From Stdlib Require Import ZArith String.
From stdpp Require Import gmap list.

Local Open Scope Z_scope.

(** ** Values of the language *)

Abbreviation loc := positive.

(** A thrown exception: property access on [null], or a typed-array copy that
    does not fit. *)
Inductive exn := TypeError | RangeError.

Inductive result (A : Type) : Type :=
| Return (a : A)
| Throw (e : exn).
Arguments Return {A} a.
Arguments Throw {A} e.

Definition bind {A B} (m : result A) (k : A → result B) : result B :=
  match m with
  | Return a => k a
  | Throw e => Throw e
  end.

Notation "'let!' p ':=' m 'in' k" := (bind m (fun p => k))
  (at level 10, p pattern, m at level 100, k at level 200).

(** [ToInt32] of an integer-valued number, and the operators [>>] and [&]. *)
Definition ToInt32 (n : Z) : Z := (n + 2 ^ 31) mod 2 ^ 32 - 2 ^ 31.

Definition js_sar (n count : Z) : Z :=
  Z.shiftr (ToInt32 n) (Z.land count 31).

Definition js_and (a b : Z) : Z := Z.land (ToInt32 a) (ToInt32 b).

(** Truthiness of a number. *)
Definition truthy (n : Z) : bool := negb (n =? 0).

(** A natural number rounded to [p] significant bits, to nearest and on a
    tie to the even neighbour, as IEEE 754 arithmetic rounds. *)
Definition round_bits (p a : Z) : Z :=
  let e := Z.log2 a + 1 - p in
  if e <=? 0 then a
  else
    let q := Z.shiftr a e in
    let r := a mod 2 ^ e in
    let half := 2 ^ (e - 1) in
    let q' :=
      if r <? half then q
      else if half <? r then q + 1
      else if Z.even q then q else q + 1 in
    Z.shiftl q' e.

(** The double nearest to an integer: what an arithmetic operation whose exact
    result is that integer returns.  (Beyond the range of doubles the code
    reads only the sign of the result and its [ToInt32], which is 0 there as
    it is for the integer returned here.) *)
Definition to_double (n : Z) : Z := Z.sgn n * round_bits 53 (Z.abs n).

(** [a - b] on numbers. *)
Definition js_sub (a b : Z) : Z := to_double (a - b).

(** An element of a [Float32Array]: a float32 with an integer value, or an
    infinity. *)
Inductive float32 :=
| F32 (z : Z)
| F32_infinity (negative : bool).

Coercion F32 : Z >-> float32.

(** The element a [Float32Array] stores for a number: [Math.fround].  From
    2^128 - 2^103 on the nearest float32 is an infinity. *)
Definition fround (n : Z) : float32 :=
  let m := round_bits 24 (Z.abs n) in
  if 2 ^ 128 <=? m then F32_infinity (n <? 0) else F32 (Z.sgn n * m).

Record Point := { px : Z; py : Z }.

Record Rectangle := { rx : Z; ry : Z; rwidth : Z; rheight : Z }.

Record BoundingBox := { minX : Z; minY : Z; maxX : Z; maxY : Z }.

(** An <img> or <canvas> element as a call observes it: its identity and its
    current size ([width] is 0 until the image is decoded). *)
Record Image := { image_id : loc; image_width : Z; image_height : Z }.

(** The part of a [createjs.Graphics] object that the leaves read, and
    whether it holds a render cache. *)
Record Graphics := {
  box : BoundingBox;
  isDirty : bool;
  isEmpty : bool;
  cached : bool
}.

(** The 1x1 probe canvas context shared by all bitmaps. *)
Record Context2D := {
  canvas_width : Z;
  canvas_height : Z;
  globalCompositeOperation : string
}.

Global Instance Point_eq_dec : EqDecision Point.
Proof. solve_decision. Defined.
Global Instance Rectangle_eq_dec : EqDecision Rectangle.
Proof. solve_decision. Defined.
Global Instance BoundingBox_eq_dec : EqDecision BoundingBox.
Proof. solve_decision. Defined.
Global Instance Image_eq_dec : EqDecision Image.
Proof. solve_decision. Defined.

Global Instance Rectangle_inhabited : Inhabited Rectangle :=
  populate {| rx := 0; ry := 0; rwidth := 0; rheight := 0 |}.
Global Instance Graphics_inhabited : Inhabited Graphics :=
  populate {| box := {| minX := 0; minY := 0; maxX := 0; maxY := 0 |};
              isDirty := false; isEmpty := true; cached := false |}.

(** ** Calls into collaborators *)

Inductive Call :=
| SetDirty (owner : loc) (flag : Z)
| GraphicsCache (g : loc) (flag : Z)
| GraphicsUncache (g : loc)
| GraphicsHitTest (g : loc) (local : Point)
| SuperLayout (dirty time draw : Z)
| FactoryGet (path : string)
| RemoveListeners (image : Image)
| RendererUncache (renderer : loc) (image : Image)
| NewComposer (c : loc)
| ApplyAlphaMap (c : loc) (image : option Image) (alpha : Image)
| ComposerDestroy (c : loc)
| CreateCanvas
| DrawImage (image : option Image) (dx dy : Z)
| GetImageData.

Global Instance Call_eq_dec : EqDecision Call.
Proof. solve_decision. Defined.

(** ** The world outside a leaf *)

Record World := {
  rects : gmap loc Rectangle;
  gfx : gmap loc Graphics;
  composers : gmap loc bool;
  hitTestContext_ : option Context2D;
  trace : list Call
}.

Definition emit (c : Call) (w : World) : World :=
  {| rects := rects w; gfx := gfx w; composers := composers w;
     hitTestContext_ := hitTestContext_ w; trace := trace w ++ [c] |}.

Definition set_rects (r : gmap loc Rectangle) (w : World) : World :=
  {| rects := r; gfx := gfx w; composers := composers w;
     hitTestContext_ := hitTestContext_ w; trace := trace w |}.

Definition set_gfx (g : gmap loc Graphics) (w : World) : World :=
  {| rects := rects w; gfx := g; composers := composers w;
     hitTestContext_ := hitTestContext_ w; trace := trace w |}.

Definition set_composers (c : gmap loc bool) (w : World) : World :=
  {| rects := rects w; gfx := gfx w; composers := c;
     hitTestContext_ := hitTestContext_ w; trace := trace w |}.

Definition set_hitTestContext (c : option Context2D) (w : World) : World :=
  {| rects := rects w; gfx := gfx w; composers := composers w;
     hitTestContext_ := c; trace := trace w |}.

(** [new createjs.Rectangle(x, y, width, height)] *)
Definition new_Rectangle (r : Rectangle) (w : World) : loc * World :=
  let l := fresh (dom (rects w)) in
  (l, set_rects (<[l := r]> (rects w)) w).

(** Modelled from the spec: [createjs.Graphics.prototype.cache] and [uncache]
    (graphics.js is not part of this file) build and release the render cache
    of one Graphics object. *)
Definition Graphics_set_cached (c : bool) (g : Graphics) : Graphics :=
  {| box := box g; isDirty := isDirty g; isEmpty := isEmpty g; cached := c |}.

Definition Graphics_cache (g : loc) (flag : Z) (w : World) : World :=
  emit (GraphicsCache g flag)
       (set_gfx (<[g := Graphics_set_cached true (gfx w !!! g)]> (gfx w)) w).

Definition Graphics_uncache (g : loc) (w : World) : World :=
  emit (GraphicsUncache g)
       (set_gfx (<[g := Graphics_set_cached false (gfx w !!! g)]> (gfx w)) w).

(** ** createjs.DisplayObject: the base of both leaves *)

Record DisplayObject := {
  boundingBox : BoundingBox;
  dirty : Z;
  owners : option (list loc);
  compositionId : Z;
  alphaMapFilter : option Image
}.

(** Modelled from the spec: [createjs.DisplayObject.prototype.setBoundingBox]
    (display_object.js is not part of this file) stores the four bounds as the
    node's bounding box. *)
Definition setBoundingBox (x0 y0 x1 y1 : Z) (o : DisplayObject) : DisplayObject :=
  {| boundingBox := {| minX := x0; minY := y0; maxX := x1; maxY := y1 |};
     dirty := dirty o; owners := owners o; compositionId := compositionId o;
     alphaMapFilter := alphaMapFilter o |}.

(** Modelled from the spec: [createjs.DisplayObject.prototype.setDirty]
    (display_object.js is not part of this file) accumulates the flag into the
    node's dirty mask. *)
Definition setDirty (flag : Z) (o : DisplayObject) : DisplayObject :=
  {| boundingBox := boundingBox o; dirty := Z.lor (dirty o) flag;
     owners := owners o; compositionId := compositionId o;
     alphaMapFilter := alphaMapFilter o |}.

(** What the code takes from files that are not part of this one: constants
    and methods of the base class, the image factory, the composer and the
    pixels that the sampling calls read. *)
Class Collaborators := {
  DIRTY_SHAPE : Z;
  DIRTY_MASK : Z;
  DisplayObject_new : DisplayObject;
  DisplayObject_isVisible : DisplayObject → bool;
  DisplayObject_hitTestObject : DisplayObject → Point → Z → bool → option loc;
  DisplayObject_layout :
    DisplayObject → loc → option loc → Z → Z → Z → DisplayObject * Z;
  inverse_transformPoint : DisplayObject → Point → Point;
  Graphics_hitTestObject : loc → Point → bool;
  ImageFactory_get : string → Image;
  Composer_getOutput : loc → Image;
  probe_alpha : option Image → Z → Z → Z
}.

(** ** createjs.Shape *)

Module Shape.

Record t := {
  base : DisplayObject;
  graphics_ : option loc;
  masks_ : option (list loc);
  hitTestPoint_ : option Point;
  hitTestResult_ : option loc
}.

Definition set_base (o : DisplayObject) (s : t) : t :=
  {| base := o; graphics_ := graphics_ s; masks_ := masks_ s;
     hitTestPoint_ := hitTestPoint_ s; hitTestResult_ := hitTestResult_ s |}.

Definition set_graphics_ (g : option loc) (s : t) : t :=
  {| base := base s; graphics_ := g; masks_ := masks_ s;
     hitTestPoint_ := hitTestPoint_ s; hitTestResult_ := hitTestResult_ s |}.

Definition set_masks_ (m : option (list loc)) (s : t) : t :=
  {| base := base s; graphics_ := graphics_ s; masks_ := m;
     hitTestPoint_ := hitTestPoint_ s; hitTestResult_ := hitTestResult_ s |}.

Definition set_hitTestPoint_ (p : option Point) (s : t) : t :=
  {| base := base s; graphics_ := graphics_ s; masks_ := masks_ s;
     hitTestPoint_ := p; hitTestResult_ := hitTestResult_ s |}.

Definition set_hitTestResult_ (r : option loc) (s : t) : t :=
  {| base := base s; graphics_ := graphics_ s; masks_ := masks_ s;
     hitTestPoint_ := hitTestPoint_ s; hitTestResult_ := r |}.

Section Methods.
Context `{Collaborators}.

(** [new createjs.Graphics()]: an empty path without a cache. *)
Definition new_Graphics (w : World) : loc * World :=
  let l := fresh (dom (gfx w)) in
  (l, set_gfx (<[l := inhabitant]> (gfx w)) w).

(** [createjs.Shape = function(opt_graphics)] *)
Definition new (opt_graphics : option loc) (w : World) : World * t :=
  let '(g, w1) :=
    match opt_graphics with
    | Some g => (g, w)
    | None => new_Graphics w
    end in
  (w1, {| base := DisplayObject_new; graphics_ := Some g; masks_ := None;
          hitTestPoint_ := None; hitTestResult_ := None |}).

Definition getGraphics (s : t) : option loc := graphics_ s.

(** [for (i = 0; i < owners.length; ++i) owners[i].setDirty(flag)] *)
Fixpoint setDirty_each (os : list loc) (flag : Z) (w : World) : World :=
  match os with
  | [] => w
  | o :: os' => setDirty_each os' flag (emit (SetDirty o flag) w)
  end.

(** [createjs.Shape.prototype.setGraphics].  An array, also an empty one, is
    truthy; only [null] owners leave at once. *)
Definition setGraphics (graphics : option loc) (w : World) (s : t) : World * t :=
  match owners (base s) with
  | None => (w, s)
  | Some os =>
    if truthy (compositionId (base s)) then
      let s1 := set_graphics_ graphics s in
      match graphics with
      | Some g =>
        let b := box (gfx w !!! g) in
        let s2 := set_base (setBoundingBox (minX b) (minY b) (maxX b) (maxY b)
                                           (base s1)) s1 in
        (setDirty_each os DIRTY_MASK w, s2)
      | None => (w, s1)
      end
    else (w, s)
  end.

(** [for (i = 0; i < masks.length; ++i) masks[i].cache(flag)] *)
Fixpoint cache_each (ms : list loc) (flag : Z) (w : World) : World :=
  match ms with
  | [] => w
  | m :: ms' => cache_each ms' flag (Graphics_cache m flag w)
  end.

(** [for (i = 0; i < masks.length; ++i) masks[i].uncache()] *)
Fixpoint uncache_each (ms : list loc) (w : World) : World :=
  match ms with
  | [] => w
  | m :: ms' => uncache_each ms' (Graphics_uncache m w)
  end.

(** [createjs.Shape.prototype.handleAttach].  Without a graphics object the
    first use of [graphics] (its [cache] method or its [box]) throws. *)
Definition handleAttach (flag : Z) (w : World) (s : t) : result (World * t) :=
  match getGraphics s with
  | None => Throw TypeError
  | Some g =>
    let w1 :=
      if truthy flag then
        let w' := Graphics_cache g flag w in
        match masks_ s with
        | Some ms => if truthy (js_and flag 2) then cache_each ms flag w' else w'
        | None => w'
        end
      else w in
    let b := box (gfx w1 !!! g) in
    Return (w1, set_base (setBoundingBox (minX b) (minY b) (maxX b) (maxY b)
                                         (base s)) s)
  end.

(** [createjs.Shape.prototype.handleDetach] *)
Definition handleDetach (w : World) (s : t) : World * t :=
  let '(w1, s1) :=
    match graphics_ s with
    | Some g => (Graphics_uncache g w, set_graphics_ None s)
    | None => (w, s)
    end in
  match masks_ s1 with
  | Some ms => (uncache_each ms w1, set_masks_ None s1)
  | None => (w1, s1)
  end.

(** [createjs.Shape.prototype.removeAllChildren] *)
Definition removeAllChildren (w : World) (s : t) : World * t := handleDetach w s.

(** [createjs.Shape.prototype.hitTestObject] (under [USE_PIXEL_TEST]) *)
Definition hitTestObject (point : Point) (types : Z) (bubble : bool)
    (w : World) (s : t) : World * t * option loc :=
  let object := DisplayObject_hitTestObject (base s) point types bubble in
  match object, graphics_ s with
  | Some _, Some g =>
    let sample (s1 : t) :=
      let local := inverse_transformPoint (base s1)
                     {| px := px point; py := py point |} in
      let w1 := emit (GraphicsHitTest g local) w in
      let object' := if Graphics_hitTestObject g local then object else None in
      (w1, set_hitTestResult_ object' s1, object') in
    match hitTestPoint_ s with
    | Some last =>
      let dx := px last - px point in
      let dy := py last - py point in
      if dx * dx + dy * dy <=? 4 then (w, s, hitTestResult_ s)
      else sample (set_hitTestPoint_
                     (Some {| px := px point; py := py point |}) s)
    | None =>
      sample (set_hitTestPoint_ (Some {| px := px point; py := py point |}) s)
    end
  | _, _ => (w, s, object)
  end.

(** [createjs.Shape.prototype.layout] *)
Definition layout (renderer : loc) (parent : option loc) (dirty time draw : Z)
    (w : World) (s : t) : World * t * Z :=
  match graphics_ s with
  | None => (w, s, 0)
  | Some g =>
    let s1 :=
      if isDirty (gfx w !!! g) then
        let b := box (gfx w !!! g) in
        set_base (setBoundingBox (minX b) (minY b) (maxX b) (maxY b)
                                 (setDirty DIRTY_SHAPE (base s))) s
      else s in
    let '(o, r) :=
      DisplayObject_layout (base s1) renderer parent dirty time draw in
    (emit (SuperLayout dirty time draw) w, set_base o s1, r)
  end.

(** [createjs.Shape.prototype.isVisible] *)
Definition isVisible (w : World) (s : t) : bool :=
  match graphics_ s with
  | Some g => negb (isEmpty (gfx w !!! g)) && DisplayObject_isVisible (base s)
  | None => false
  end.

(** [createjs.Shape.prototype.addGraphics] *)
Definition addGraphics (graphics : option loc) (s : t) : t :=
  match graphics with
  | Some g =>
    let ms := match masks_ s with Some ms => ms | None => [] end in
    set_masks_ (Some (ms ++ [g])) s
  | None => s
  end.

End Methods.
End Shape.

(** ** createjs.Bitmap *)

Module Bitmap.

(** [nominalBounds] is the property that generated subclasses put on the
    object (read as [this['nominalBounds']]); [source_] starts undefined. *)
Record t := {
  base : DisplayObject;
  nominalBounds : option loc;
  image_ : option Image;
  ready_ : bool;
  drawValues_ : option (list float32);
  composer_ : option loc;
  output_ : option loc;
  source_ : option loc;
  hitTestPoint_ : option Point;
  hitTestResult_ : option loc
}.

Definition set_base (v : DisplayObject) (b : t) : t :=
  {| base := v; nominalBounds := nominalBounds b; image_ := image_ b;
     ready_ := ready_ b; drawValues_ := drawValues_ b;
     composer_ := composer_ b; output_ := output_ b; source_ := source_ b;
     hitTestPoint_ := hitTestPoint_ b; hitTestResult_ := hitTestResult_ b |}.

Definition set_nominalBounds (v : option loc) (b : t) : t :=
  {| base := base b; nominalBounds := v; image_ := image_ b;
     ready_ := ready_ b; drawValues_ := drawValues_ b;
     composer_ := composer_ b; output_ := output_ b; source_ := source_ b;
     hitTestPoint_ := hitTestPoint_ b; hitTestResult_ := hitTestResult_ b |}.

Definition set_image_ (v : option Image) (b : t) : t :=
  {| base := base b; nominalBounds := nominalBounds b; image_ := v;
     ready_ := ready_ b; drawValues_ := drawValues_ b;
     composer_ := composer_ b; output_ := output_ b; source_ := source_ b;
     hitTestPoint_ := hitTestPoint_ b; hitTestResult_ := hitTestResult_ b |}.

Definition set_ready_ (v : bool) (b : t) : t :=
  {| base := base b; nominalBounds := nominalBounds b; image_ := image_ b;
     ready_ := v; drawValues_ := drawValues_ b; composer_ := composer_ b;
     output_ := output_ b; source_ := source_ b;
     hitTestPoint_ := hitTestPoint_ b; hitTestResult_ := hitTestResult_ b |}.

Definition set_drawValues_ (v : option (list float32)) (b : t) : t :=
  {| base := base b; nominalBounds := nominalBounds b; image_ := image_ b;
     ready_ := ready_ b; drawValues_ := v; composer_ := composer_ b;
     output_ := output_ b; source_ := source_ b;
     hitTestPoint_ := hitTestPoint_ b; hitTestResult_ := hitTestResult_ b |}.

Definition set_composer_ (v : option loc) (b : t) : t :=
  {| base := base b; nominalBounds := nominalBounds b; image_ := image_ b;
     ready_ := ready_ b; drawValues_ := drawValues_ b; composer_ := v;
     output_ := output_ b; source_ := source_ b;
     hitTestPoint_ := hitTestPoint_ b; hitTestResult_ := hitTestResult_ b |}.

Definition set_output_ (v : option loc) (b : t) : t :=
  {| base := base b; nominalBounds := nominalBounds b; image_ := image_ b;
     ready_ := ready_ b; drawValues_ := drawValues_ b;
     composer_ := composer_ b; output_ := v; source_ := source_ b;
     hitTestPoint_ := hitTestPoint_ b; hitTestResult_ := hitTestResult_ b |}.

Definition set_source_ (v : option loc) (b : t) : t :=
  {| base := base b; nominalBounds := nominalBounds b; image_ := image_ b;
     ready_ := ready_ b; drawValues_ := drawValues_ b;
     composer_ := composer_ b; output_ := output_ b; source_ := v;
     hitTestPoint_ := hitTestPoint_ b; hitTestResult_ := hitTestResult_ b |}.

Definition set_hitTestPoint_ (v : option Point) (b : t) : t :=
  {| base := base b; nominalBounds := nominalBounds b; image_ := image_ b;
     ready_ := ready_ b; drawValues_ := drawValues_ b;
     composer_ := composer_ b; output_ := output_ b; source_ := source_ b;
     hitTestPoint_ := v; hitTestResult_ := hitTestResult_ b |}.

Definition set_hitTestResult_ (v : option loc) (b : t) : t :=
  {| base := base b; nominalBounds := nominalBounds b; image_ := image_ b;
     ready_ := ready_ b; drawValues_ := drawValues_ b;
     composer_ := composer_ b; output_ := output_ b; source_ := source_ b;
     hitTestPoint_ := hitTestPoint_ b; hitTestResult_ := v |}.

(** The argument of the constructor: a URL or an image element. *)
Inductive Value := VString (path : string) | VImage (image : Image).

(** Modelled from the spec: [createjs.cloneFloat32Array] (base.js is not part
    of this file) returns a new [Float32Array] with the given values, each
    stored as a float32. *)
Definition cloneFloat32Array (values : list Z) : list float32 :=
  map fround values.

(** [Float32Array.prototype.set(array)]: copies to the front, each number
    stored as a float32, and throws when the source is longer than the
    target. *)
Definition TypedArray_set (src : list Z) (dst : list float32)
    : result (list float32) :=
  if (length dst <? length src)%nat then Throw RangeError
  else Return (map fround src ++ drop (length src) dst).

Section Methods.
Context `{Collaborators}.

(** The two centering steps that follow a read of [nominalBounds], as both
    [initializeBitmap_] and [handleEvent] write them out:
    [if (offset > 0) drawValues[i] = offset >> 1]. *)
Definition align (nominal : option loc) (width height : Z) (w : World)
    (drawValues : list float32) : list float32 :=
  match nominal with
  | Some nb =>
    let offsetX := js_sub (rwidth (rects w !!! nb)) width in
    let dv1 :=
      if 0 <? offsetX then <[4%nat := fround (js_sar offsetX 1)]> drawValues
      else drawValues in
    let offsetY := js_sub (rheight (rects w !!! nb)) height in
    if 0 <? offsetY then <[5%nat := fround (js_sar offsetY 1)]> dv1 else dv1
  | None => drawValues
  end.

(** [createjs.Bitmap.prototype.initializeBitmap_] *)
Definition initializeBitmap_ (value : Value) (w : World) (b : t) : World * t :=
  let '(image, w1) :=
    match value with
    | VString path => (ImageFactory_get path, emit (FactoryGet path) w)
    | VImage image => (image, w)
    end in
  let b1 := set_image_ (Some image) b in
  let width := image_width image in
  let height := image_height image in
  let b2 := set_ready_ (truthy width) b1 in
  let '(src, w2, b3) :=
    match source_ b2 with
    | Some l => (l, w1, b2)
    | None =>
      let '(l, w') :=
        new_Rectangle {| rx := 0; ry := 0; rwidth := width; rheight := height |}
                      w1 in
      (l, w', set_source_ (Some l) b2)
    end in
  let source := rects w2 !!! src in
  let dv := cloneFloat32Array
              [rx source; ry source; rwidth source; rheight source;
               0; 0; width; height; 0; 0; 0; 0] in
  let dv1 := align (nominalBounds b3) width height w2 dv in
  (w2, set_base (setBoundingBox 0 0 width height (base b3))
                (set_drawValues_ (Some dv1) b3)).

(** [createjs.Bitmap = function(value)]; the object starts from the
    prototype's fields. *)
Definition new (nominal : option loc) (value : option Value) (w : World)
    : World * t :=
  let b := {| base := DisplayObject_new; nominalBounds := nominal;
              image_ := None; ready_ := false; drawValues_ := None;
              composer_ := None; output_ := None; source_ := None;
              hitTestPoint_ := None; hitTestResult_ := None |} in
  match value with
  | Some v => initializeBitmap_ v w b
  | None => (w, b)
  end.

(** [createjs.Bitmap.prototype.getComposer_] *)
Definition getComposer_ (w : World) (b : t) : loc * World * t :=
  match composer_ b with
  | Some c => (c, w, b)
  | None =>
    let c := fresh (dom (composers w)) in
    (c, emit (NewComposer c) (set_composers (<[c := true]> (composers w)) w),
     set_composer_ (Some c) b)
  end.

(** [createjs.Bitmap.prototype.getSourceImage_] *)
Definition getSourceImage_ (b : t) : option Image :=
  match composer_ b with
  | Some c => Some (Composer_getOutput c)
  | None => image_ b
  end.

Definition getImage (b : t) : option Image := image_ b.

Definition getSourceRect (b : t) : option loc := source_ b.

(** [createjs.Bitmap.prototype.handleAttach] *)
Definition handleAttach (flag : Z) (w : World) (b : t) : World * t :=
  if negb (truthy flag) || negb (ready_ b) then (w, b)
  else
    match alphaMapFilter (base b) with
    | Some alpha =>
      let '(c, w1, b1) := getComposer_ w b in
      (emit (ApplyAlphaMap c (image_ b1) alpha) w1, b1)
    | None => (w, b)
    end.

(** [createjs.Bitmap.prototype.handleDetach] *)
Definition handleDetach (w : World) (b : t) : World * t :=
  let '(w1, b1) :=
    match getSourceImage_ b, output_ b with
    | Some image, Some renderer =>
      (emit (RendererUncache renderer image) w, set_output_ None b)
    | _, _ => (w, b)
    end in
  match composer_ b1 with
  | Some c =>
    (emit (ComposerDestroy c)
          (set_composers (<[c := false]> (composers w1)) w1),
     set_composer_ None b1)
  | None => (w1, b1)
  end.

(** [createjs.Bitmap.prototype.setImage] *)
Definition setImage (image : option Image) (w : World) (b : t) : World * t :=
  let '(w1, b1) := handleDetach w b in
  let b2 := set_image_ image b1 in
  let b3 :=
    set_ready_ (match image with
                | Some i => truthy (image_width i)
                | None => false
                end) b2 in
  handleAttach 1 w1 b3.

(** [createjs.Bitmap.prototype.setSourceRect] *)
Definition setSourceRect (rectangle : option loc) (w : World) (b : t)
    : result (World * t) :=
  match rectangle with
  | None => Throw TypeError
  | Some r =>
    let width := rwidth (rects w !!! r) in
    let height := rheight (rects w !!! r) in
    let b1 := set_base (setBoundingBox 0 0 width height (base b)) b in
    let dv :=
      match drawValues_ b1 with
      | Some dv => dv
      | None => cloneFloat32Array [0; 0; 0; 0; 0; 0; 0; 0]
      end in
    let! dv1 := TypedArray_set
                  [rx (rects w !!! r); ry (rects w !!! r);
                   rwidth (rects w !!! r); rheight (rects w !!! r);
                   0; 0; width; height] dv in
    Return (w, set_source_ (Some r) (set_drawValues_ (Some dv1) b1))
  end.

(** [createjs.Bitmap.prototype.handleEvent]; [type] and [image] are the
    event's [type] and [target]. *)
Definition handleEvent (type : string) (image : Image) (w : World) (b : t)
    : result (World * t) :=
  let w1 := emit (RemoveListeners image) w in
  let b1 := set_ready_ (String.eqb type "load") b in
  match source_ b1, ready_ b1 with
  | Some src, true =>
    let width := image_width image in
    let height := image_height image in
    let source := rects w1 !!! src in
    let w2 := set_rects (<[src := {| rx := rx source; ry := ry source;
                                     rwidth := width; rheight := height |}]>
                           (rects w1)) w1 in
    match drawValues_ b1 with
    | None => Throw TypeError
    | Some drawValues =>
      let dv := <[5%nat := fround 0]> (<[4%nat := fround 0]>
                  (<[3%nat := fround height]> (<[2%nat := fround width]>
                     (<[1%nat := fround 0]> (<[0%nat := fround 0]>
                        drawValues))))) in
      let dv1 := align (nominalBounds b1) width height w2 dv in
      let dv2 := <[7%nat := fround height]> (<[6%nat := fround width]> dv1) in
      let b2 := set_base (setBoundingBox 0 0 width height (base b1))
                         (set_drawValues_ (Some dv2) b1) in
      Return (handleAttach 1 w2 b2)
    end
  | _, _ => Return (w1, set_image_ None b1)
  end.

(** [createjs.Bitmap.prototype.removeAllChildren] *)
Definition removeAllChildren (w : World) (b : t) : World * t :=
  let '(w1, b1) := handleDetach w b in
  (w1, set_ready_ false (set_source_ None (set_image_ None b1))).

(** [createjs.Bitmap.prototype.hitTestObject] (under [USE_PIXEL_TEST]) *)
Definition hitTestObject (point : Point) (types : Z) (bubble : bool)
    (w : World) (b : t) : World * t * option loc :=
  let object := DisplayObject_hitTestObject (base b) point types bubble in
  match object with
  | Some _ =>
    let sample (b1 : t) :=
      let local0 := inverse_transformPoint (base b1)
                      {| px := px point; py := py point |} in
      let local :=
        match source_ b1 with
        | Some src => {| px := px local0 + rx (rects w !!! src);
                         py := py local0 + ry (rects w !!! src) |}
        | None => local0
        end in
      let w1 :=
        match hitTestContext_ w with
        | Some _ => w
        | None =>
          set_hitTestContext
            (Some {| canvas_width := 1; canvas_height := 1;
                     globalCompositeOperation := "copy" |})
            (emit CreateCanvas w)
        end in
      let w2 := emit GetImageData
                  (emit (DrawImage (image_ b1) (- px local) (- py local)) w1) in
      let object' :=
        if truthy (probe_alpha (image_ b1) (- px local) (- py local))
        then object else None in
      (w2, set_hitTestResult_ object' b1, object') in
    match hitTestPoint_ b with
    | Some last =>
      let dx := px last - px point in
      let dy := py last - py point in
      if dx * dx + dy * dy <=? 4 then (w, b, hitTestResult_ b)
      else sample (set_hitTestPoint_
                     (Some {| px := px point; py := py point |}) b)
    | None =>
      sample (set_hitTestPoint_ (Some {| px := px point; py := py point |}) b)
    end
  | None => (w, b, None)
  end.

(** [createjs.Bitmap.prototype.isVisible] *)
Definition isVisible (b : t) : bool :=
  ready_ b && DisplayObject_isVisible (base b).

End Methods.
End Bitmap.

(** ** Running the code: one choice of collaborators

    Flags 4 and 8 for the two dirty bits, a base class that is visible, hits
    every point and lays out to the dirty mask it was given, the identity
    transform, a vector path with content on the half-plane [x < 3], and an
    image that is opaque on the same half-plane. *)
Definition plain_stage : Collaborators := {|
  DIRTY_SHAPE := 4;
  DIRTY_MASK := 8;
  DisplayObject_new :=
    {| boundingBox := {| minX := 0; minY := 0; maxX := 0; maxY := 0 |};
       dirty := 0; owners := None; compositionId := 0;
       alphaMapFilter := None |};
  DisplayObject_isVisible := fun _ => true;
  DisplayObject_hitTestObject := fun _ _ _ _ => Some 1%positive;
  DisplayObject_layout := fun o _ _ d _ _ => (o, d);
  inverse_transformPoint := fun _ p => p;
  Graphics_hitTestObject := fun _ p => px p <? 3;
  ImageFactory_get := fun _ =>
    {| image_id := 1%positive; image_width := 0; image_height := 0 |};
  Composer_getOutput := fun c =>
    {| image_id := c; image_width := 1; image_height := 1 |};
  probe_alpha := fun _ dx _ => if -3 <? dx then 255 else 0
|}.

Definition empty_world : World :=
  {| rects := ∅; gfx := ∅; composers := ∅; hitTestContext_ := None;
     trace := [] |}.

(** ** The centering law in the spec's words *)

(** If the image dimension is below the nominal dimension the offset is
    floor((nominal − image)/2), otherwise 0. *)
Definition centered (nominal image : Z) : Z :=
  if image <? nominal then (nominal - image) / 2 else 0.

(** The offset the code computes before it is stored:
    [offset > 0 ? offset >> 1 : 0] for [offset = nominal - image]. *)
Definition shifted (nominal image : Z) : Z :=
  if 0 <? js_sub nominal image then js_sar (js_sub nominal image) 1 else 0.

(** ** Notions used in the statements *)

(** The offsets that [align] leaves in slots 4 and 5 of a buffer whose
    offsets were 0. *)
Definition offsetX (nominal : option loc) (w : World) (width : Z) : Z :=
  match nominal with
  | Some nb => shifted (rwidth (rects w !!! nb)) width
  | None => 0
  end.

Definition offsetY (nominal : option loc) (w : World) (height : Z) : Z :=
  match nominal with
  | Some nb => shifted (rheight (rects w !!! nb)) height
  | None => 0
  end.

(** The image that [initializeBitmap_] ends up with. *)
Definition resolve `{Collaborators} (value : Bitmap.Value) : Image :=
  match value with
  | Bitmap.VString path => ImageFactory_get path
  | Bitmap.VImage image => image
  end.

(** The buffer, once allocated, has 8 or 12 slots, and a leaf with a source
    region has a buffer. *)
Definition buffer_sized (b : Bitmap.t) : Prop :=
  match Bitmap.drawValues_ b with
  | Some dv => length dv = 8%nat ∨ length dv = 12%nat
  | None => Bitmap.source_ b = None
  end.

(** The centering law of the spec for one leaf: with nominal bounds, slots 4
    and 5 hold the centred offsets of the image. *)
Definition offsets_centered (w : World) (b : Bitmap.t) (image : Image) : Prop :=
  ∀ nb, Bitmap.nominalBounds b = Some nb →
    ∃ dv, Bitmap.drawValues_ b = Some dv
      ∧ dv !! 4%nat
        = Some (F32 (centered (rwidth (rects w !!! nb)) (image_width image)))
      ∧ dv !! 5%nat
        = Some (F32 (centered (rheight (rects w !!! nb))
                              (image_height image))).

(** The same law for one offset: slot 4 and the widths, slot 5 and the
    heights. *)
Definition offsetX_centered (w : World) (b : Bitmap.t) (image : Image) : Prop :=
  ∀ nb, Bitmap.nominalBounds b = Some nb →
    ∃ dv, Bitmap.drawValues_ b = Some dv
      ∧ dv !! 4%nat
        = Some (F32 (centered (rwidth (rects w !!! nb)) (image_width image))).

Definition offsetY_centered (w : World) (b : Bitmap.t) (image : Image) : Prop :=
  ∀ nb, Bitmap.nominalBounds b = Some nb →
    ∃ dv, Bitmap.drawValues_ b = Some dv
      ∧ dv !! 5%nat
        = Some (F32 (centered (rheight (rects w !!! nb))
                              (image_height image))).



(** A number that a float32 holds exactly: an integer up to 2^24 in
    magnitude. *)
Definition exact32 (n : Z) : Prop := Z.abs n <= 2 ^ 24.


(** The number of [setDirty(flag)] calls on one owner in a run of calls. *)
Definition marks (o : loc) (flag : Z) (calls : list Call) : nat :=
  length (filter (λ c, c = SetDirty o flag) calls).

(** The number of entries of an owner in an owners list. *)
Definition entries (o : loc) (os : list loc) : nat :=
  length (filter (λ o', o' = o) os).

(** Squared distance of two points. *)
Definition dist2 (p q : Point) : Z :=
  (px p - px q) * (px p - px q) + (py p - py q) * (py p - py q).

(** There is no memoized point within squared distance 4 of [p]. *)
Definition memo_far (memo : option Point) (p : Point) : Prop :=
  match memo with
  | Some last => 4 < dist2 last p
  | None => True
  end.

(** The point at which a Bitmap probes its image for a query at [point]. *)
Definition probe_local `{Collaborators} (point : Point) (w : World)
    (b : Bitmap.t) : Point :=
  let local0 := inverse_transformPoint (Bitmap.base b) point in
  match Bitmap.source_ b with
  | Some src => {| px := px local0 + rx (rects w !!! src);
                   py := py local0 + ry (rects w !!! src) |}
  | None => local0
  end.

(** The calls of one probe: the canvas is made on first use, then the image
    is drawn and the pixel read. *)
Definition probe_calls `{Collaborators} (point : Point) (w : World)
    (b : Bitmap.t) : list Call :=
  (match hitTestContext_ w with Some _ => [] | None => [CreateCanvas] end)
  ++ [DrawImage (Bitmap.image_ b) (- px (probe_local point w b))
                (- py (probe_local point w b));
      GetImageData].

(** The result of one probe when the base class reported [o]. *)
Definition probe_result `{Collaborators} (point : Point) (w : World)
    (b : Bitmap.t) (o : loc) : option loc :=
  if truthy (probe_alpha (Bitmap.image_ b) (- px (probe_local point w b))
                         (- py (probe_local point w b)))
  then Some o else None.

(** ** States and stores for running the code *)

(** A store with one rectangle, at location 1. *)
Definition one_rect (r : Rectangle) : World :=
  set_rects {[ 1%positive := r ]} empty_world.

Definition image_64x32 : Image :=
  {| image_id := 2; image_width := 64; image_height := 32 |}.

Definition image_10x10 : Image :=
  {| image_id := 3; image_width := 10; image_height := 10 |}.

(** A Shape that is a mask of owner 7, with geometry 1. *)
Definition mask_shape : Shape.t :=
  {| Shape.base :=
       {| boundingBox := {| minX := 0; minY := 0; maxX := 0; maxY := 0 |};
          dirty := 0; owners := Some [7%positive]; compositionId := 1;
          alphaMapFilter := None |};
     Shape.graphics_ := Some 1%positive; Shape.masks_ := Some [2%positive];
     Shape.hitTestPoint_ := None; Shape.hitTestResult_ := None |}.

(** The same Shape with an owners array that is empty. *)
Definition orphan_shape : Shape.t :=
  Shape.set_base
    {| boundingBox := {| minX := 0; minY := 0; maxX := 0; maxY := 0 |};
       dirty := 0; owners := Some []; compositionId := 1;
       alphaMapFilter := None |} mask_shape.

(** Two Graphics objects, both cached; object 2 has the box (1, 2, 3, 4). *)
Definition two_graphics : World :=
  set_gfx {[ 1%positive := {| box := {| minX := 0; minY := 0; maxX := 9;
                                        maxY := 9 |};
                              isDirty := false; isEmpty := false;
                              cached := true |};
             2%positive := {| box := {| minX := 1; minY := 2; maxX := 3;
                                        maxY := 4 |};
                              isDirty := false; isEmpty := false;
                              cached := true |} ]} empty_world.

(** A ready Bitmap with an alpha map and a renderer. *)
Definition filtered_bitmap : Bitmap.t :=
  {| Bitmap.base :=
       {| boundingBox := {| minX := 0; minY := 0; maxX := 64; maxY := 32 |};
          dirty := 0; owners := None; compositionId := 0;
          alphaMapFilter := Some image_10x10 |};
     Bitmap.nominalBounds := None; Bitmap.image_ := Some image_64x32;
     Bitmap.ready_ := true;
     Bitmap.drawValues_ :=
       Some (map F32 [0; 0; 64; 32; 0; 0; 64; 32; 0; 0; 0; 0]);
     Bitmap.composer_ := None; Bitmap.output_ := Some 9%positive;
     Bitmap.source_ := None; Bitmap.hitTestPoint_ := None;
     Bitmap.hitTestResult_ := None |}.

(** ** Painting: the calls that the renderer argument receives *)

Inductive RendererCall :=
| Paint (g : loc)
| SetColorMatrix (matrix : option loc)
| DrawPartial (image : option Image) (values : option (list float32)).

(** [createjs.Shape.prototype.paintObject]: [this.graphics_.paint(renderer)],
    which throws without a graphics object. *)
Definition Shape_paintObject (s : Shape.t) : result (list RendererCall) :=
  match Shape.graphics_ s with
  | Some g => Return [Paint g]
  | None => Throw TypeError
  end.

(** [createjs.Bitmap.prototype.paintObject]; [matrix] is what the base
    class's [getColorMatrix()] returns. *)
Definition Bitmap_paintObject `{Collaborators} (matrix : option loc)
    (b : Bitmap.t) : list RendererCall :=
  (match matrix with
   | Some m => [SetColorMatrix (Some m)]
   | None => []
   end)
  ++ [DrawPartial (Bitmap.getSourceImage_ b) (Bitmap.drawValues_ b)]
  ++ (match matrix with
      | Some _ => [SetColorMatrix None]
      | None => []
      end).

(** The [cache] calls of a run of calls, and the [uncache] calls. *)
Definition cache_calls (flag : Z) (gs : list loc) : list Call :=
  map (λ g, GraphicsCache g flag) gs.

Definition uncache_calls (gs : list loc) : list Call :=
  map GraphicsUncache gs.

(** The Graphics objects a Shape holds: its geometry, then its masks. *)
Definition held (s : Shape.t) : list loc :=
  match Shape.graphics_ s with Some g => [g] | None => [] end
  ++ default [] (Shape.masks_ s).

(** ** The leaves that the code can produce *)

(** One call of a method of a Bitmap that returns.  [paintObject] hands the
    buffer itself to [renderer.drawPartial], whose code is not part of this
    file: the last step lets the renderer write any values into the slots of
    the buffer, whose number it cannot change. *)
Inductive Bitmap_step `{Collaborators}
    : World * Bitmap.t → World * Bitmap.t → Prop :=
| step_initializeBitmap_ value w b :
    Bitmap_step (w, b) (Bitmap.initializeBitmap_ value w b)
| step_setImage image w b :
    Bitmap_step (w, b) (Bitmap.setImage image w b)
| step_setSourceRect rectangle w b w' b' :
    Bitmap.setSourceRect rectangle w b = Return (w', b') →
    Bitmap_step (w, b) (w', b')
| step_handleEvent type image w b w' b' :
    Bitmap.handleEvent type image w b = Return (w', b') →
    Bitmap_step (w, b) (w', b')
| step_handleAttach flag w b :
    Bitmap_step (w, b) (Bitmap.handleAttach flag w b)
| step_handleDetach w b :
    Bitmap_step (w, b) (Bitmap.handleDetach w b)
| step_removeAllChildren w b :
    Bitmap_step (w, b) (Bitmap.removeAllChildren w b)
| step_hitTestObject point types bubble w b :
    Bitmap_step (w, b) (fst (Bitmap.hitTestObject point types bubble w b))
| step_paintObject w b dv dv' :
    Bitmap.drawValues_ b = Some dv →
    length dv' = length dv →
    Bitmap_step (w, b) (w, Bitmap.set_drawValues_ (Some dv') b).

(** A Bitmap as the constructor makes it, after any number of such calls. *)
Inductive Bitmap_reachable `{Collaborators} : World * Bitmap.t → Prop :=
| reachable_new nominal value w :
    Bitmap_reachable (Bitmap.new nominal value w)
| reachable_step x y :
    Bitmap_reachable x → Bitmap_step x y → Bitmap_reachable y.

(** Slots 6 and 7 of the buffer are the width and the height of the bounding
    box as float32, and the bounding box starts at the origin. *)
Definition box_in_buffer (b : Bitmap.t) : Prop :=
  ∀ dv, Bitmap.drawValues_ b = Some dv →
    dv !! 6%nat = Some (fround (maxX (boundingBox (Bitmap.base b))))
    ∧ dv !! 7%nat = Some (fround (maxY (boundingBox (Bitmap.base b))))
    ∧ minX (boundingBox (Bitmap.base b)) = 0
    ∧ minY (boundingBox (Bitmap.base b)) = 0.

(** What holds of every Bitmap that the code can produce. *)
Definition Bitmap_inv (x : World * Bitmap.t) : Prop :=
  buffer_sized (snd x)
  ∧ Bitmap.output_ (snd x) = None
  ∧ (∀ c, Bitmap.composer_ (snd x) = Some c →
       composers (fst x) !! c = Some true)
  ∧ (Bitmap.hitTestPoint_ (snd x) = None →
       Bitmap.hitTestResult_ (snd x) = None).

(** The [removeListeners] calls of a run of calls. *)
Definition is_removal (c : Call) : bool :=
  match c with RemoveListeners _ => true | _ => false end.

Definition removals (calls : list Call) : list Call :=
  List.filter is_removal calls.

(** The calls of a run that ask a renderer to drop an image. *)
Definition is_uncache (c : Call) : bool :=
  match c with RendererUncache _ _ => true | _ => false end.

Definition uncaches (calls : list Call) : list Call :=
  List.filter is_uncache calls.

(** One Graphics object, at location 1, that is dirty and has the box
    (0, 0, 10, 10). *)
Definition dirty_graphics : World :=
  set_gfx {[ 1%positive := {| box := {| minX := 0; minY := 0; maxX := 10;
                                        maxY := 10 |};
                              isDirty := true; isEmpty := false;
                              cached := false |} ]} empty_world.

(** * Properties *)

(** ** 32-bit arithmetic *)

Lemma ToInt32_small (n : Z) : - 2 ^ 31 <= n < 2 ^ 31 → ToInt32 n = n.
Proof.
  intros Hn. unfold ToInt32.
  rewrite Z.mod_small by lia. lia.
Qed.

Lemma js_sar_half (n : Z) : 0 <= n < 2 ^ 31 → js_sar n 1 = n / 2.
Proof.
  intros Hn. unfold js_sar.
  rewrite ToInt32_small by lia.
  change (Z.land 1 31) with 1.
  rewrite Z.shiftr_div_pow2 by lia. reflexivity.
Qed.

(** ** Rounding *)

Lemma round_bits_nonneg (p a : Z) : 0 <= a → 0 <= round_bits p a.
Proof.
  intros Ha. unfold round_bits.
  destruct (Z.log2 a + 1 - p <=? 0); [exact Ha|].
  apply Z.shiftl_nonneg.
  assert (0 <= Z.shiftr a (Z.log2 a + 1 - p)) by (apply Z.shiftr_nonneg; lia).
  repeat case_match; lia.
Qed.

Lemma round_bits_below (p a : Z) :
  0 < p → 0 <= a < 2 ^ p → round_bits p a = a.
Proof.
  intros Hp [Ha Hlt]. unfold round_bits.
  destruct (Z.eq_dec a 0) as [->|Hne].
  - change (Z.log2 0) with 0.
    destruct (Z.leb_spec (0 + 1 - p) 0); [reflexivity|lia].
  - assert (Z.log2 a < p) by (apply Z.log2_lt_pow2; lia).
    destruct (Z.leb_spec (Z.log2 a + 1 - p) 0); [reflexivity|lia].
Qed.

Lemma round_bits_24 (a : Z) : 0 <= a <= 2 ^ 24 → round_bits 24 a = a.
Proof.
  intros [Ha Hle]. destruct (Z.eq_dec a (2 ^ 24)) as [->|Hne].
  - reflexivity.
  - apply round_bits_below; lia.
Qed.

Lemma round_bits_53 (a : Z) : 0 <= a <= 2 ^ 53 → round_bits 53 a = a.
Proof.
  intros [Ha Hle]. destruct (Z.eq_dec a (2 ^ 53)) as [->|Hne].
  - reflexivity.
  - apply round_bits_below; lia.
Qed.

Lemma fround_exact (n : Z) : exact32 n → fround n = F32 n.
Proof.
  unfold exact32, fround. intros Hn.
  rewrite round_bits_24 by lia.
  destruct (Z.leb_spec (2 ^ 128) (Z.abs n)) as [Hbig|_].
  - assert (2 ^ 24 < 2 ^ 128) by reflexivity. lia.
  - f_equal. lia.
Qed.

Lemma to_double_exact (n : Z) : Z.abs n <= 2 ^ 53 → to_double n = n.
Proof.
  intros Hn. unfold to_double. rewrite round_bits_53 by lia. lia.
Qed.

Lemma to_double_nonpos (n : Z) : n <= 0 → to_double n <= 0.
Proof.
  intros Hn. unfold to_double.
  pose proof (round_bits_nonneg 53 (Z.abs n) (Z.abs_nonneg n)).
  destruct n; cbn in *; lia.
Qed.

Lemma shifted_centered (nominal image : Z) :
  nominal - image < 2 ^ 31 → shifted nominal image = centered nominal image.
Proof.
  intros Hlt. unfold shifted, centered, js_sub.
  destruct (Z.ltb_spec image nominal) as [Hpos|Hle].
  - rewrite to_double_exact by (assert (2 ^ 31 < 2 ^ 53) by reflexivity; lia).
    destruct (Z.ltb_spec 0 (nominal - image)); [|lia].
    apply js_sar_half. lia.
  - pose proof (to_double_nonpos (nominal - image)).
    destruct (Z.ltb_spec 0 (to_double (nominal - image))); [lia|reflexivity].
Qed.

Lemma fround_shifted (nominal image : Z) :
  nominal - image <= 2 ^ 25 →
  fround (shifted nominal image) = F32 (centered nominal image).
Proof.
  intros Hle.
  rewrite shifted_centered by (assert (2 ^ 25 < 2 ^ 31) by reflexivity; lia).
  apply fround_exact. unfold exact32, centered.
  destruct (Z.ltb_spec image nominal) as [Hpos|_];
    [|assert (0 < 2 ^ 24) by reflexivity; cbn; lia].
  assert (0 <= (nominal - image) / 2 <= 2 ^ 24); [|lia].
  split; [apply Z.div_pos; lia|].
  apply Z.div_le_upper_bound; [lia|].
  change (2 * 2 ^ 24) with (2 ^ 25). lia.
Qed.

(** ** The draw-parameter buffer *)

Section DrawParameters.
Context `{Collaborators}.

Lemma align_slots nominal width height w (a0 a1 a2 a3 : float32) rest :
  Bitmap.align nominal width height w
    (a0 :: a1 :: a2 :: a3 :: F32 0 :: F32 0 :: rest)
  = a0 :: a1 :: a2 :: a3 :: fround (offsetX nominal w width)
       :: fround (offsetY nominal w height) :: rest.
Proof.
  unfold Bitmap.align, offsetX, offsetY, shifted.
  destruct nominal as [nb|]; [|reflexivity].
  destruct (0 <? js_sub (rwidth (rects w !!! nb)) width),
           (0 <? js_sub (rheight (rects w !!! nb)) height); reflexivity.
Qed.

Lemma initializeBitmap_unfold value w b :
  Bitmap.initializeBitmap_ value w b =
  let image := resolve value in
  let w1 := match value with
            | Bitmap.VString path => emit (FactoryGet path) w
            | Bitmap.VImage _ => w
            end in
  let l := match Bitmap.source_ b with
           | Some l => l
           | None => fresh (dom (rects w1))
           end in
  let w2 := match Bitmap.source_ b with
            | Some _ => w1
            | None =>
              set_rects (<[l := {| rx := 0; ry := 0;
                                   rwidth := image_width image;
                                   rheight := image_height image |}]>
                           (rects w1)) w1
            end in
  let source := rects w2 !!! l in
  (w2,
   {| Bitmap.base := setBoundingBox 0 0 (image_width image)
                                    (image_height image) (Bitmap.base b);
      Bitmap.nominalBounds := Bitmap.nominalBounds b;
      Bitmap.image_ := Some image;
      Bitmap.ready_ := truthy (image_width image);
      Bitmap.drawValues_ :=
        Some (map fround
                [rx source; ry source; rwidth source; rheight source;
                 offsetX (Bitmap.nominalBounds b) w2 (image_width image);
                 offsetY (Bitmap.nominalBounds b) w2 (image_height image);
                 image_width image; image_height image; 0; 0; 0; 0]);
      Bitmap.composer_ := Bitmap.composer_ b;
      Bitmap.output_ := Bitmap.output_ b;
      Bitmap.source_ := Some l;
      Bitmap.hitTestPoint_ := Bitmap.hitTestPoint_ b;
      Bitmap.hitTestResult_ := Bitmap.hitTestResult_ b |}).
Proof.
  unfold Bitmap.initializeBitmap_, resolve, Bitmap.cloneFloat32Array.
  destruct value as [path|image]; destruct b as [o nb im rd dv co out [src|] hp hr];
    cbn -[Bitmap.align fresh fround]; change (fround 0) with (F32 0);
    rewrite align_slots; reflexivity.
Qed.

End DrawParameters.

Section BitmapBuffer.
Context `{Collaborators}.




End BitmapBuffer.

(** ** The size of the buffer *)

Section BufferSize.
Context `{Collaborators}.

Lemma align_length nominal width height w dv :
  length (Bitmap.align nominal width height w dv) = length dv.
Proof.
  unfold Bitmap.align. destruct nominal as [nb|]; [|reflexivity].
  repeat case_match; rewrite ?length_insert; reflexivity.
Qed.

Lemma handleAttach_fields flag w b :
  let b' := snd (Bitmap.handleAttach flag w b) in
  Bitmap.drawValues_ b' = Bitmap.drawValues_ b
  ∧ Bitmap.source_ b' = Bitmap.source_ b
  ∧ Bitmap.image_ b' = Bitmap.image_ b
  ∧ Bitmap.ready_ b' = Bitmap.ready_ b
  ∧ Bitmap.nominalBounds b' = Bitmap.nominalBounds b
  ∧ Bitmap.base b' = Bitmap.base b
  ∧ Bitmap.output_ b' = Bitmap.output_ b
  ∧ rects (fst (Bitmap.handleAttach flag w b)) = rects w.
Proof.
  unfold Bitmap.handleAttach, Bitmap.getComposer_.
  repeat case_match; simplify_eq; cbn; repeat split; reflexivity.
Qed.

Lemma handleDetach_fields w b :
  let b' := snd (Bitmap.handleDetach w b) in
  Bitmap.drawValues_ b' = Bitmap.drawValues_ b
  ∧ Bitmap.source_ b' = Bitmap.source_ b
  ∧ Bitmap.image_ b' = Bitmap.image_ b
  ∧ Bitmap.ready_ b' = Bitmap.ready_ b
  ∧ Bitmap.nominalBounds b' = Bitmap.nominalBounds b
  ∧ Bitmap.base b' = Bitmap.base b
  ∧ rects (fst (Bitmap.handleDetach w b)) = rects w.
Proof.
  unfold Bitmap.handleDetach.
  repeat case_match; simplify_eq; cbn; repeat split; reflexivity.
Qed.

Lemma new_buffer_sized nominal value w :
  buffer_sized (snd (Bitmap.new nominal value w)).
Proof.
  unfold Bitmap.new. destruct value as [v|]; [|reflexivity].
  rewrite initializeBitmap_unfold. right. reflexivity.
Qed.

Lemma initializeBitmap_buffer_sized value w b :
  buffer_sized (snd (Bitmap.initializeBitmap_ value w b)).
Proof. rewrite initializeBitmap_unfold. right. reflexivity. Qed.

Lemma handleAttach_buffer_sized flag w b :
  buffer_sized b → buffer_sized (snd (Bitmap.handleAttach flag w b)).
Proof.
  unfold buffer_sized.
  destruct (handleAttach_fields flag w b) as (-> & -> & _). auto.
Qed.

Lemma handleDetach_buffer_sized w b :
  buffer_sized b → buffer_sized (snd (Bitmap.handleDetach w b)).
Proof.
  unfold buffer_sized.
  destruct (handleDetach_fields w b) as (-> & -> & _). auto.
Qed.

Lemma setImage_drawValues image w b :
  Bitmap.drawValues_ (snd (Bitmap.setImage image w b)) = Bitmap.drawValues_ b.
Proof.
  unfold Bitmap.setImage.
  pose proof (handleDetach_fields w b) as [Hd _].
  destruct (Bitmap.handleDetach w b) as [w1 b1]. cbn in Hd.
  match goal with
  | |- Bitmap.drawValues_ (snd (Bitmap.handleAttach ?f ?w ?b)) = _ =>
      destruct (handleAttach_fields f w b) as [-> _]
  end.
  exact Hd.
Qed.

Lemma setImage_source image w b :
  Bitmap.source_ (snd (Bitmap.setImage image w b)) = Bitmap.source_ b.
Proof.
  unfold Bitmap.setImage.
  pose proof (handleDetach_fields w b) as (_ & Hs & _).
  destruct (Bitmap.handleDetach w b) as [w1 b1]. cbn in Hs.
  match goal with
  | |- Bitmap.source_ (snd (Bitmap.handleAttach ?f ?w ?b)) = _ =>
      destruct (handleAttach_fields f w b) as (_ & -> & _)
  end.
  exact Hs.
Qed.

Lemma setImage_buffer_sized image w b :
  buffer_sized b → buffer_sized (snd (Bitmap.setImage image w b)).
Proof.
  unfold buffer_sized. rewrite setImage_drawValues, setImage_source. auto.
Qed.

Lemma removeAllChildren_buffer_sized w b :
  buffer_sized b → buffer_sized (snd (Bitmap.removeAllChildren w b)).
Proof.
  unfold Bitmap.removeAllChildren, buffer_sized.
  pose proof (handleDetach_fields w b) as [Hd _].
  destruct (Bitmap.handleDetach w b) as [w1 b1]. cbn in *.
  rewrite Hd. destruct (Bitmap.drawValues_ b); auto.
Qed.

Lemma TypedArray_set_fits (src : list Z) (dst : list float32) :
  (length src ≤ length dst)%nat →
  Bitmap.TypedArray_set src dst
  = Return (map fround src ++ drop (length src) dst).
Proof.
  intros Hle. unfold Bitmap.TypedArray_set.
  destruct (Nat.ltb_spec (length dst) (length src)); [lia|reflexivity].
Qed.

Lemma setSourceRect_buffer_sized rectangle w b w' b' :
  buffer_sized b →
  Bitmap.setSourceRect rectangle w b = Return (w', b') →
  buffer_sized b'.
Proof.
  unfold buffer_sized, Bitmap.setSourceRect.
  destruct rectangle as [r|]; [|discriminate].
  destruct b as [o nb im rd [dv|] co out src hp hr]; cbn.
  - intros Hlen. rewrite TypedArray_set_fits by (cbn; lia).
    cbn. intros [= <- <-]. cbn.
    rewrite length_drop. cbn in Hlen. lia.
  - intros _ [= <- <-]. cbn. left. reflexivity.
Qed.

Lemma hitTestObject_drawValues point types bubble w b :
  Bitmap.drawValues_ (snd (fst (Bitmap.hitTestObject point types bubble w b)))
  = Bitmap.drawValues_ b.
Proof.
  unfold Bitmap.hitTestObject.
  destruct (DisplayObject_hitTestObject _ _ _ _); [|reflexivity].
  destruct (Bitmap.hitTestPoint_ b); [|reflexivity].
  case_match; reflexivity.
Qed.

Lemma hitTestObject_source point types bubble w b :
  Bitmap.source_ (snd (fst (Bitmap.hitTestObject point types bubble w b)))
  = Bitmap.source_ b.
Proof.
  unfold Bitmap.hitTestObject.
  destruct (DisplayObject_hitTestObject _ _ _ _); [|reflexivity].
  destruct (Bitmap.hitTestPoint_ b); [|reflexivity].
  case_match; reflexivity.
Qed.

Lemma hitTestObject_buffer_sized point types bubble w b :
  buffer_sized b →
  buffer_sized (snd (fst (Bitmap.hitTestObject point types bubble w b))).
Proof.
  unfold buffer_sized.
  rewrite hitTestObject_drawValues, hitTestObject_source. auto.
Qed.

Lemma handleEvent_buffer_sized type image w b w' b' :
  buffer_sized b →
  Bitmap.handleEvent type image w b = Return (w', b') →
  buffer_sized b'.
Proof.
  unfold buffer_sized, Bitmap.handleEvent.
  destruct b as [o nb im rd dv co out src hp hr];
    cbn -[Bitmap.handleAttach Bitmap.align].
  destruct src as [src|], (String.eqb type "load");
    cbn -[Bitmap.handleAttach Bitmap.align];
    try (intros Hs [= <- <-]; exact Hs).
  destruct dv as [dv|]; [|discriminate].
  intros Hs Heq. injection Heq as Heq.
  match type of Heq with
  | Bitmap.handleAttach ?f ?w ?b = _ =>
      destruct (handleAttach_fields f w b) as [Hd _]; rewrite Heq in Hd
  end.
  cbn in Hd. rewrite Hd.
  rewrite !length_insert, align_length, !length_insert. exact Hs.
Qed.


End BufferSize.

(** ** Centering within the nominal bounds *)

Section Centering.
Context `{Collaborators}.

Lemma handleEvent_load image w b src dv :
  Bitmap.source_ b = Some src →
  Bitmap.drawValues_ b = Some dv →
  let width := image_width image in
  let height := image_height image in
  let source := rects w !!! src in
  let w2 := set_rects (<[src := {| rx := rx source; ry := ry source;
                                   rwidth := width; rheight := height |}]>
                         (rects w)) (emit (RemoveListeners image) w) in
  Bitmap.handleEvent "load" image w b
  = Return (Bitmap.handleAttach 1 w2
      (Bitmap.set_base
         (setBoundingBox 0 0 width height (Bitmap.base b))
         (Bitmap.set_drawValues_
            (Some (<[7%nat := fround height]> (<[6%nat := fround width]>
               (Bitmap.align (Bitmap.nominalBounds b) width height w2
                  (<[5%nat := F32 0]> (<[4%nat := F32 0]>
                     (<[3%nat := fround height]> (<[2%nat := fround width]>
                        (<[1%nat := F32 0]> (<[0%nat := F32 0]>
                           dv))))))))))
            (Bitmap.set_ready_ true b)))).
Proof.
  intros Hsrc Hdv. unfold Bitmap.handleEvent.
  destruct b as [o nb im rd dv0 co out src0 hp hr]. cbn in Hsrc, Hdv.
  subst src0 dv0. reflexivity.
Qed.

Lemma handleEvent_not_load type image w b :
  type ≠ "load"%string →
  Bitmap.handleEvent type image w b
  = Return (emit (RemoveListeners image) w,
            Bitmap.set_image_ None (Bitmap.set_ready_ false b)).
Proof.
  intros Hne. unfold Bitmap.handleEvent.
  apply String.eqb_neq in Hne. rewrite Hne.
  destruct b as [o nb im rd dv0 co out [src|] hp hr]; reflexivity.
Qed.

(** C3, as the code has it.  For a leaf with nominal bounds, after
    [initializeBitmap_] and after a "load" event on a leaf with a source
    region, each of slots 4 and 5 on its own is floor((nominal − image)/2)
    when the nominal dimension exceeds the image dimension, by at most 2^25,
    and 0 when it does not exceed it.  (The halving is a 32-bit shift and the
    slot a float32: larger differences are not held exactly.)
    [setSourceRect] writes 0 to both slots and [setImage] leaves the buffer
    as it is; neither reads the nominal bounds. *)
Theorem offsets_centered_on_init_and_load (value : Bitmap.Value)
    (image image' : Image) (r : loc) (w : World) (b : Bitmap.t) (nb : loc) :
  Bitmap.nominalBounds b = Some nb →
  buffer_sized b →
  (let w' := fst (Bitmap.initializeBitmap_ value w b) in
   let b' := snd (Bitmap.initializeBitmap_ value w b) in
   (rwidth (rects w' !!! nb) - image_width (resolve value) <= 2 ^ 25 →
    offsetX_centered w' b' (resolve value))
   ∧ (rheight (rects w' !!! nb) - image_height (resolve value) <= 2 ^ 25 →
      offsetY_centered w' b' (resolve value)))
  ∧ (∀ src,
       Bitmap.source_ b = Some src →
       ∃ w' b', Bitmap.handleEvent "load" image w b = Return (w', b')
         ∧ (rwidth (rects w' !!! nb) - image_width image <= 2 ^ 25 →
            offsetX_centered w' b' image)
         ∧ (rheight (rects w' !!! nb) - image_height image <= 2 ^ 25 →
            offsetY_centered w' b' image))
  ∧ (∃ b' dv', Bitmap.setSourceRect (Some r) w b = Return (w, b')
       ∧ Bitmap.drawValues_ b' = Some dv'
       ∧ dv' !! 4%nat = Some (F32 0) ∧ dv' !! 5%nat = Some (F32 0))
  ∧ Bitmap.drawValues_ (snd (Bitmap.setImage (Some image') w b))
    = Bitmap.drawValues_ b.
Proof.
  intros Hnb Hsized. repeat apply conj.
  - cbv zeta. rewrite initializeBitmap_unfold. cbv zeta.
    set (w' := match Bitmap.source_ b with Some _ => _ | None => _ end).
    cbn [fst snd]. intros Hx nb' Hnb'. cbn in Hnb'.
    rewrite Hnb in Hnb'. injection Hnb' as <-.
    eexists. split; [reflexivity|]. rewrite Hnb. cbn -[fround].
    rewrite fround_shifted by assumption. reflexivity.
  - cbv zeta. rewrite initializeBitmap_unfold. cbv zeta.
    set (w' := match Bitmap.source_ b with Some _ => _ | None => _ end).
    cbn [fst snd]. intros Hy nb' Hnb'. cbn in Hnb'.
    rewrite Hnb in Hnb'. injection Hnb' as <-.
    eexists. split; [reflexivity|]. rewrite Hnb. cbn -[fround].
    rewrite fround_shifted by assumption. reflexivity.
  - intros src Hsrc.
    destruct (Bitmap.drawValues_ b) as [dv|] eqn:Hdv;
      [|unfold buffer_sized in Hsized; rewrite Hdv in Hsized; congruence].
    rewrite (handleEvent_load image w b src dv Hsrc Hdv). cbv zeta.
    match goal with
    | |- context [Bitmap.handleAttach ?f ?w0 ?b0] =>
        pose proof (handleAttach_fields f w0 b0) as (Hd & _ & _ & _ & Hn & _ & _ & Hr);
        destruct (Bitmap.handleAttach f w0 b0) as [w' b'] eqn:Hatt
    end.
    cbn [fst snd] in Hd, Hn, Hr.
    exists w', b'. split; [reflexivity|].
    unfold buffer_sized in Hsized. rewrite Hdv in Hsized.
    do 6 (destruct dv as [|? dv]; [cbn in Hsized; lia|]).
    destruct dv as [|? [|? dv]]; cbn in Hsized; try lia.
    cbn [insert list_insert] in Hd. rewrite align_slots in Hd.
    cbn [insert list_insert Bitmap.set_base Bitmap.set_drawValues_
         Bitmap.drawValues_ Bitmap.set_ready_ Bitmap.nominalBounds] in Hd, Hn.
    rewrite Hnb in Hd. unfold offsetX, offsetY in Hd. rewrite <- Hr in Hd.
    split.
    + intros Hx nb' Hnb'. rewrite Hn, Hnb in Hnb'. injection Hnb' as <-.
      eexists. split; [exact Hd|]. cbn -[fround].
      rewrite fround_shifted by assumption. reflexivity.
    + intros Hy nb' Hnb'. rewrite Hn, Hnb in Hnb'. injection Hnb' as <-.
      eexists. split; [exact Hd|]. cbn -[fround].
      rewrite fround_shifted by assumption. reflexivity.
  - unfold buffer_sized, Bitmap.setSourceRect in *.
    destruct b as [o nb0 im rd [dv|] co out src hp hr]; cbn -[fround] in *.
    + rewrite TypedArray_set_fits by (cbn; lia).
      cbn -[fround]. eexists _, _. repeat split.
    + eexists _, _. repeat split.
  - apply setImage_drawValues.
Qed.

(** C7. An event whose type is not "load" makes the leaf call
    [removeListeners] on the image once and nothing else, sets [ready_] to
    false and [image_] to null, returns normally, and leaves the leaf
    invisible. *)
Theorem handleEvent_failure (type : string) (image : Image) (w : World)
    (b : Bitmap.t) :
  type ≠ "load"%string →
  ∃ w' b',
    Bitmap.handleEvent type image w b = Return (w', b')
    ∧ trace w' = trace w ++ [RemoveListeners image]
    ∧ Bitmap.ready_ b' = false
    ∧ Bitmap.getImage b' = None
    ∧ Bitmap.isVisible b' = false.
Proof.
  intros Hne. rewrite handleEvent_not_load by assumption.
  eexists _, _. repeat split.
Qed.

(** C9, at the input where it fails.  On a leaf constructed without a value,
    [setSourceRect] allocates the buffer with eight slots, not twelve. *)
Theorem setSourceRect_allocates_eight (nominal : option loc) (r : loc)
    (w : World) :
  let b := snd (Bitmap.new nominal None w) in
  Bitmap.drawValues_ b = None
  ∧ ∃ b' dv, Bitmap.setSourceRect (Some r) w b = Return (w, b')
      ∧ Bitmap.drawValues_ b' = Some dv
      ∧ length dv = 8%nat.
Proof.
  cbn. split; [reflexivity|]. eexists _, _. repeat split.
Qed.

End Centering.

(** ** Shape: replacing the geometry *)

Section ShapeGeometry.
Context `{Collaborators}.

Lemma setDirty_each_spec os flag w :
  Shape.setDirty_each os flag w
  = {| rects := rects w; gfx := gfx w; composers := composers w;
       hitTestContext_ := hitTestContext_ w;
       trace := trace w ++ map (λ o, SetDirty o flag) os |}.
Proof.
  revert w. induction os as [|o os IH]; intros w; cbn.
  - rewrite app_nil_r. destruct w; reflexivity.
  - rewrite IH. cbn. rewrite <- app_assoc. reflexivity.
Qed.

Lemma marks_map o flag os :
  marks o flag (map (λ o', SetDirty o' flag) os) = entries o os.
Proof.
  unfold marks, entries. induction os as [|o' os IH]; [reflexivity|].
  cbn [map]. rewrite !filter_cons.
  destruct (decide (o' = o)) as [->|Hne].
  - rewrite decide_True by reflexivity. cbn. rewrite IH. reflexivity.
  - rewrite decide_False by congruence. exact IH.
Qed.

Lemma entries_absent (o : loc) (os : list loc) : o ∉ os → entries o os = 0%nat.
Proof.
  unfold entries. induction os as [|o' os IH]; intros Hnotin; [reflexivity|].
  apply not_elem_of_cons in Hnotin as [Hne Hnotin].
  rewrite filter_cons_False by congruence. auto.
Qed.

Lemma entries_NoDup (o : loc) (os : list loc) :
  NoDup os → o ∈ os → entries o os = 1%nat.
Proof.
  induction 1 as [|o' os Hnotin Hnd IH]; intros Hin.
  - inversion Hin.
  - unfold entries. rewrite filter_cons.
    destruct (decide (o' = o)) as [->|Hne].
    + cbn. f_equal. apply (entries_absent o os Hnotin).
    + apply IH. apply elem_of_cons in Hin as [->|Hin]; [congruence|exact Hin].
Qed.

Lemma box_eta (b : BoundingBox) :
  {| minX := minX b; minY := minY b; maxX := maxX b; maxY := maxY b |} = b.
Proof. destruct b; reflexivity. Qed.

(** C5. On a Shape with a non-empty owners list and a non-zero composition
    id, [setGraphics] with a non-null geometry stores that geometry, makes the
    geometry's box the node's bounding box, and calls [setDirty(DIRTY_MASK)]
    once for each entry of the owners list, in order, and nothing else; with
    distinct owners that is exactly once per owner, and with one owner the
    only call issued is one mark on that owner. *)
Theorem setGraphics_marks_owners (g : loc) (w : World) (s : Shape.t)
    (os : list loc) :
  owners (Shape.base s) = Some os →
  os ≠ [] →
  compositionId (Shape.base s) ≠ 0 →
  let w' := fst (Shape.setGraphics (Some g) w s) in
  let s' := snd (Shape.setGraphics (Some g) w s) in
  Shape.getGraphics s' = Some g
  ∧ boundingBox (Shape.base s') = box (gfx w !!! g)
  ∧ trace w' = trace w ++ map (λ o, SetDirty o DIRTY_MASK) os
  ∧ (∀ o, marks o DIRTY_MASK (drop (length (trace w)) (trace w'))
          = entries o os)
  ∧ (NoDup os → ∀ o, o ∈ os →
       marks o DIRTY_MASK (drop (length (trace w)) (trace w')) = 1%nat)
  ∧ (∀ o, os = [o] → trace w' = trace w ++ [SetDirty o DIRTY_MASK])
  ∧ rects w' = rects w ∧ gfx w' = gfx w.
Proof.
  intros Hos _ Hcomp. unfold Shape.setGraphics. rewrite Hos.
  unfold truthy. apply Z.eqb_neq in Hcomp. rewrite Hcomp.
  cbn [negb fst snd]. rewrite setDirty_each_spec. cbn.
  rewrite box_eta, drop_app_length.
  repeat split.
  - intros o. apply marks_map.
  - intros Hnd o Hin. rewrite marks_map. apply entries_NoDup; assumption.
  - intros o ->. reflexivity.
Qed.

(** C8, as the code has it.  With [null] owners [setGraphics] changes
    nothing.  With an owners array that is present but empty it calls no
    collaborator and leaves the world as it is; it changes nothing when the
    composition id is 0, and with a non-zero composition id it stores the
    geometry and, for a non-null one, applies its box. *)
Theorem setGraphics_without_owners (graphics : option loc) (w : World)
    (s : Shape.t) :
  (owners (Shape.base s) = None → Shape.setGraphics graphics w s = (w, s))
  ∧ (owners (Shape.base s) = Some [] →
       fst (Shape.setGraphics graphics w s) = w
       ∧ (compositionId (Shape.base s) = 0 →
            Shape.setGraphics graphics w s = (w, s))
       ∧ (compositionId (Shape.base s) ≠ 0 →
            Shape.getGraphics (snd (Shape.setGraphics graphics w s)) = graphics
            ∧ ∀ g, graphics = Some g →
                boundingBox (Shape.base (snd (Shape.setGraphics graphics w s)))
                = box (gfx w !!! g))).
Proof.
  unfold Shape.setGraphics. split.
  - intros ->. reflexivity.
  - intros ->. unfold truthy. split; [|split].
    + destruct (compositionId (Shape.base s) =? 0), graphics; reflexivity.
    + intros ->. reflexivity.
    + intros Hcomp. apply Z.eqb_neq in Hcomp. rewrite Hcomp. split.
      * destruct graphics; reflexivity.
      * intros g ->. cbn. apply box_eta.
Qed.

(** C10. Without a geometry [layout] returns 0, calls neither the base
    layout nor anything else, and leaves the node as it is. *)
Theorem layout_without_graphics (renderer : loc) (parent : option loc)
    (dirty time draw : Z) (w : World) (s : Shape.t) :
  Shape.graphics_ s = None →
  Shape.layout renderer parent dirty time draw w s = (w, s, 0).
Proof. intros Hg. unfold Shape.layout. rewrite Hg. reflexivity. Qed.

End ShapeGeometry.

(** ** Attach and detach *)

Section Lifecycle.
Context `{Collaborators}.

Lemma Graphics_uncache_cached (m g : loc) (w : World) :
  cached (gfx (Graphics_uncache m w) !!! g)
  = if decide (m = g) then false else cached (gfx w !!! g).
Proof.
  unfold Graphics_uncache. cbn. destruct (decide (m = g)) as [->|Hne].
  - rewrite lookup_total_insert_eq. reflexivity.
  - rewrite lookup_total_insert_ne by assumption. reflexivity.
Qed.

Lemma uncache_each_cached (ms : list loc) (g : loc) (w : World) :
  cached (gfx (Shape.uncache_each ms w) !!! g)
  = if decide (g ∈ ms) then false else cached (gfx w !!! g).
Proof.
  revert w. induction ms as [|m ms IH]; intros w; cbn [Shape.uncache_each].
  - rewrite decide_False by apply not_elem_of_nil. reflexivity.
  - rewrite IH, Graphics_uncache_cached.
    destruct (decide (g ∈ ms)) as [Hin|Hnotin].
    + rewrite decide_True by (right; exact Hin). reflexivity.
    + destruct (decide (m = g)) as [->|Hne].
      * rewrite decide_True by left. reflexivity.
      * rewrite decide_False; [reflexivity|].
        intros [->|Hin]%elem_of_cons; [congruence|contradiction].
Qed.

Lemma Shape_handleDetach_fields (w : World) (s : Shape.t) :
  Shape.graphics_ (snd (Shape.handleDetach w s)) = None
  ∧ Shape.masks_ (snd (Shape.handleDetach w s)) = None.
Proof.
  unfold Shape.handleDetach.
  destruct s as [o [g|] [ms|] hp hr]; cbn; split; reflexivity.
Qed.

Lemma Shape_handleDetach_released (w : World) (s : Shape.t) :
  Shape.graphics_ s = None → Shape.masks_ s = None →
  Shape.handleDetach w s = (w, s).
Proof.
  intros Hg Hm. unfold Shape.handleDetach. rewrite Hg, Hm. reflexivity.
Qed.

Lemma Shape_handleDetach_idempotent (w : World) (s : Shape.t) :
  Shape.handleDetach (fst (Shape.handleDetach w s))
                     (snd (Shape.handleDetach w s))
  = Shape.handleDetach w s.
Proof.
  destruct (Shape_handleDetach_fields w s) as [Hg Hm].
  rewrite Shape_handleDetach_released by assumption.
  destruct (Shape.handleDetach w s); reflexivity.
Qed.

Lemma Shape_handleDetach_cached (w : World) (s : Shape.t) (g : loc) :
  cached (gfx (fst (Shape.handleDetach w s)) !!! g)
  = if decide (Shape.graphics_ s = Some g ∨ g ∈ default [] (Shape.masks_ s))
    then false else cached (gfx w !!! g).
Proof.
  unfold Shape.handleDetach.
  destruct s as [o [g0|] [ms|] hp hr];
    cbn -[Graphics_uncache Shape.uncache_each];
    rewrite ?uncache_each_cached, ?Graphics_uncache_cached;
    repeat case_decide; try reflexivity; exfalso;
    repeat match goal with
           | Hor : _ ∨ _ |- _ => destruct Hor
           | Hin : _ ∈ [] |- _ => inversion Hin
           end; simplify_eq; tauto.
Qed.

Lemma Bitmap_handleDetach_released (w : World) (b : Bitmap.t) :
  Bitmap.composer_ b = None →
  (Bitmap.image_ b = None ∨ Bitmap.output_ b = None) →
  Bitmap.handleDetach w b = (w, b).
Proof.
  unfold Bitmap.handleDetach, Bitmap.getSourceImage_.
  destruct b as [o nb im rd dv c out src hp hr]; cbn.
  intros -> [-> | ->]; [reflexivity|]. destruct im; reflexivity.
Qed.

Lemma Bitmap_handleDetach_after (w : World) (b : Bitmap.t) :
  Bitmap.composer_ (snd (Bitmap.handleDetach w b)) = None
  ∧ (Bitmap.image_ (snd (Bitmap.handleDetach w b)) = None
     ∨ Bitmap.output_ (snd (Bitmap.handleDetach w b)) = None).
Proof.
  unfold Bitmap.handleDetach, Bitmap.getSourceImage_.
  destruct b as [o nb [im|] rd dv [c|] [out|] src hp hr]; cbn; auto.
Qed.

Lemma Bitmap_handleDetach_idempotent (w : World) (b : Bitmap.t) :
  Bitmap.handleDetach (fst (Bitmap.handleDetach w b))
                      (snd (Bitmap.handleDetach w b))
  = Bitmap.handleDetach w b.
Proof.
  destruct (Bitmap_handleDetach_after w b) as [Hc Hio].
  rewrite Bitmap_handleDetach_released by assumption.
  destruct (Bitmap.handleDetach w b); reflexivity.
Qed.

Lemma Shape_handleAttach_1 (w : World) (s : Shape.t) (g : loc) :
  Shape.graphics_ s = Some g →
  let w1 := Graphics_cache g 1 w in
  Shape.handleAttach 1 w s
  = Return (w1, Shape.set_base
                  (setBoundingBox (minX (box (gfx w1 !!! g)))
                     (minY (box (gfx w1 !!! g))) (maxX (box (gfx w1 !!! g)))
                     (maxY (box (gfx w1 !!! g))) (Shape.base s)) s).
Proof.
  intros Hg. unfold Shape.handleAttach, Shape.getGraphics. rewrite Hg.
  change (truthy 1) with true. change (truthy (js_and 1 2)) with false.
  cbv iota. destruct (Shape.masks_ s); reflexivity.
Qed.

Lemma Bitmap_roundtrip (w : World) (b : Bitmap.t) :
  let w1 := fst (Bitmap.handleAttach 1 w b) in
  let b1 := snd (Bitmap.handleAttach 1 w b) in
  let w2 := fst (Bitmap.handleDetach w1 b1) in
  let b2 := snd (Bitmap.handleDetach w1 b1) in
  Bitmap.composer_ b2 = None
  ∧ (∀ c, Bitmap.composer_ b1 = Some c → composers w2 !! c = Some false)
  ∧ (is_Some (Bitmap.image_ b) → Bitmap.output_ b2 = None)
  ∧ (∀ r image, Bitmap.output_ b = Some r →
       Bitmap.getSourceImage_ b1 = Some image →
       RendererUncache r image ∈ trace w2)
  ∧ Bitmap.getImage b2 = Bitmap.getImage b.
Proof.
  cbv zeta.
  split; [apply Bitmap_handleDetach_after|].
  unfold Bitmap.handleAttach, Bitmap.getComposer_, Bitmap.handleDetach,
    Bitmap.getSourceImage_, Bitmap.getImage.
  destruct b as [[bb d os ci [alpha|]] nb [im|] [|] dv [c|] [out|] src hp hr];
    cbn -[fresh]; (repeat apply conj);
    try reflexivity; try (intros [? ?]; discriminate);
    try (intros ? [= <-]; apply lookup_insert_eq);
    try (intros ? ? ?; discriminate);
    try (intros ? ?; discriminate);
    try (intros ? ? [= <-] [= <-]; set_solver).
Qed.

(** C4. [onAttach(1)] throws a TypeError on a Shape without geometry, as a
    Shape is after [onDetach()].  On a Shape that holds a geometry and on any
    Bitmap, [onAttach(1)] followed by [onDetach()] returns normally and
    leaves no cached resource of this file: the Shape's geometry and mask
    list are null and none of the Graphics objects it held has a cache; the
    Bitmap's composer is null and destroyed, and its image handle is the one
    it had.  The Bitmap's renderer pointer is null when there was a source
    image to drop (always when the leaf has an image) and is otherwise the
    one it had.  A further [onDetach()] changes nothing and calls nothing,
    and so does any [onDetach()] that follows another. *)
Theorem attach_detach_roundtrip (w : World) (s : Shape.t) (wb : World)
    (b : Bitmap.t) :
  (Shape.graphics_ s = None → Shape.handleAttach 1 w s = Throw TypeError)
  ∧ (∀ g, Shape.graphics_ s = Some g →
     ∃ w1 s1, Shape.handleAttach 1 w s = Return (w1, s1)
     ∧ let w2 := fst (Shape.handleDetach w1 s1) in
       let s2 := snd (Shape.handleDetach w1 s1) in
       Shape.graphics_ s2 = None
       ∧ Shape.masks_ s2 = None
       ∧ (∀ g', Shape.graphics_ s = Some g'
                ∨ g' ∈ default [] (Shape.masks_ s) →
                cached (gfx w2 !!! g') = false)
       ∧ Shape.handleDetach w2 s2 = (w2, s2))
  ∧ (let w1 := fst (Bitmap.handleAttach 1 wb b) in
     let b1 := snd (Bitmap.handleAttach 1 wb b) in
     let w2 := fst (Bitmap.handleDetach w1 b1) in
     let b2 := snd (Bitmap.handleDetach w1 b1) in
     Bitmap.composer_ b2 = None
     ∧ (∀ c, Bitmap.composer_ b1 = Some c → composers w2 !! c = Some false)
     ∧ Bitmap.output_ b2
       = match Bitmap.getSourceImage_ b1 with
         | Some _ => None
         | None => Bitmap.output_ b
         end
     ∧ (is_Some (Bitmap.image_ b) → Bitmap.output_ b2 = None)
     ∧ (∀ r image, Bitmap.output_ b = Some r →
          Bitmap.getSourceImage_ b1 = Some image →
          RendererUncache r image ∈ trace w2)
     ∧ Bitmap.getImage b2 = Bitmap.getImage b
     ∧ Bitmap.handleDetach w2 b2 = (w2, b2))
  ∧ (∀ w0 s0, Shape.handleDetach (fst (Shape.handleDetach w0 s0))
                                 (snd (Shape.handleDetach w0 s0))
              = Shape.handleDetach w0 s0)
  ∧ (∀ w0 b0, Bitmap.handleDetach (fst (Bitmap.handleDetach w0 b0))
                                  (snd (Bitmap.handleDetach w0 b0))
              = Bitmap.handleDetach w0 b0).
Proof.
  split; [|split; [|split; [|split]]].
  - intros Hg. unfold Shape.handleAttach, Shape.getGraphics.
    rewrite Hg. reflexivity.
  - intros g Hg. rewrite (Shape_handleAttach_1 w s g Hg). cbv zeta.
    eexists _, _. split; [reflexivity|].
    match goal with
    | |- context [Shape.handleDetach ?w1 ?s1] =>
        pose proof (Shape_handleDetach_fields w1 s1) as [Hg2 Hm2];
        pose proof (Shape_handleDetach_cached w1 s1) as Hc
    end.
    split; [exact Hg2|]. split; [exact Hm2|]. split.
    + intros g' Hheld. rewrite Hc. rewrite decide_True; [reflexivity|].
      exact Hheld.
    + apply Shape_handleDetach_released; assumption.
  - cbv zeta.
    pose proof (Bitmap_roundtrip wb b) as (H1 & H2 & H3 & H4 & H5).
    split; [assumption|]. split; [assumption|]. split.
    { pose proof (handleAttach_fields 1 wb b)
        as (_ & _ & _ & _ & _ & _ & Hout & _).
      cbv zeta in Hout. rewrite <- Hout.
      unfold Bitmap.handleDetach, Bitmap.getSourceImage_.
      destruct (snd (Bitmap.handleAttach 1 wb b))
        as [o nb [im|] rd dv [c|] [out|] src hp hr]; reflexivity. }
    repeat (split; [assumption|]).
    rewrite <- surjective_pairing. apply Bitmap_handleDetach_idempotent.
  - apply Shape_handleDetach_idempotent.
  - apply Bitmap_handleDetach_idempotent.
Qed.

End Lifecycle.

(** ** The hit-test memo *)

Section HitTest.
Context `{Collaborators}.

Lemma point_eta (p : Point) : {| px := px p; py := py p |} = p.
Proof. destruct p; reflexivity. Qed.

Lemma Shape_hit_near point types bubble w s o g last :
  DisplayObject_hitTestObject (Shape.base s) point types bubble = Some o →
  Shape.graphics_ s = Some g →
  Shape.hitTestPoint_ s = Some last →
  dist2 last point <= 4 →
  Shape.hitTestObject point types bubble w s = (w, s, Shape.hitTestResult_ s).
Proof.
  intros Ho Hg Hp Hd. unfold Shape.hitTestObject. rewrite Ho, Hg, Hp.
  unfold dist2 in Hd. apply Z.leb_le in Hd. rewrite Hd. reflexivity.
Qed.

Lemma Shape_hit_far point types bubble w s o g :
  DisplayObject_hitTestObject (Shape.base s) point types bubble = Some o →
  Shape.graphics_ s = Some g →
  memo_far (Shape.hitTestPoint_ s) point →
  let local := inverse_transformPoint (Shape.base s) point in
  let r := if Graphics_hitTestObject g local then Some o else None in
  Shape.hitTestObject point types bubble w s
  = (emit (GraphicsHitTest g local) w,
     Shape.set_hitTestResult_ r (Shape.set_hitTestPoint_ (Some point) s), r).
Proof.
  intros Ho Hg Hfar. unfold Shape.hitTestObject. rewrite Ho, Hg, point_eta.
  unfold memo_far, dist2 in Hfar.
  destruct (Shape.hitTestPoint_ s) as [last|]; [|reflexivity].
  apply Z.leb_gt in Hfar. rewrite Hfar. reflexivity.
Qed.

Lemma Bitmap_hit_near point types bubble w b o last :
  DisplayObject_hitTestObject (Bitmap.base b) point types bubble = Some o →
  Bitmap.hitTestPoint_ b = Some last →
  dist2 last point <= 4 →
  Bitmap.hitTestObject point types bubble w b
  = (w, b, Bitmap.hitTestResult_ b).
Proof.
  intros Ho Hp Hd. unfold Bitmap.hitTestObject. rewrite Ho, Hp.
  unfold dist2 in Hd. apply Z.leb_le in Hd. rewrite Hd. reflexivity.
Qed.

Lemma Bitmap_hit_far point types bubble w b o :
  DisplayObject_hitTestObject (Bitmap.base b) point types bubble = Some o →
  memo_far (Bitmap.hitTestPoint_ b) point →
  ∃ w',
    Bitmap.hitTestObject point types bubble w b
    = (w', Bitmap.set_hitTestResult_ (probe_result point w b o)
             (Bitmap.set_hitTestPoint_ (Some point) b),
       probe_result point w b o)
    ∧ trace w' = trace w ++ probe_calls point w b
    ∧ rects w' = rects w
    ∧ is_Some (hitTestContext_ w').
Proof.
  intros Ho Hfar.
  unfold Bitmap.hitTestObject, probe_result, probe_calls, probe_local.
  rewrite Ho, point_eta.
  unfold memo_far, dist2 in Hfar.
  assert (Hskip : match Bitmap.hitTestPoint_ b with
                  | Some last =>
                    (px last - px point) * (px last - px point)
                    + (py last - py point) * (py last - py point) <=? 4
                  | None => false
                  end = false).
  { destruct (Bitmap.hitTestPoint_ b); [apply Z.leb_gt; exact Hfar|reflexivity]. }
  destruct b as [o0 nb im rd dv co out src hp hr]. cbn in *.
  destruct hp as [last|]; [rewrite Hskip|];
    destruct src as [src|], (hitTestContext_ w) eqn:Hctx; cbn;
    eexists; (split; [reflexivity|]); cbn; rewrite <- ?app_assoc, ?Hctx;
    repeat split; eauto.
Qed.

(** C6, as the code has it.  The memo is compared with the memoized point,
    which only a sampling query moves.  With the base test passing, on a Shape
    that holds a geometry and on a Bitmap: a query within squared distance 4
    of the memoized point returns the cached result and changes and calls
    nothing; a query without a memoized point or farther from it stores the
    point, samples once and stores the result.  So after a sampling query at
    P1, a query at P2 returns the same result without sampling when the
    squared distance of P1 and P2 is at most 4, and moves the memo to P2 and
    samples once more when it is larger. *)
Theorem hit_test_memo (P1 P2 : Point) (types : Z) (bubble : bool)
    (w : World) (s : Shape.t) (g o1 o2 : loc)
    (wb : World) (b : Bitmap.t) (ob1 ob2 : loc) :
  DisplayObject_hitTestObject (Shape.base s) P1 types bubble = Some o1 →
  DisplayObject_hitTestObject (Shape.base s) P2 types bubble = Some o2 →
  Shape.graphics_ s = Some g →
  DisplayObject_hitTestObject (Bitmap.base b) P1 types bubble = Some ob1 →
  DisplayObject_hitTestObject (Bitmap.base b) P2 types bubble = Some ob2 →
  (∀ last, Shape.hitTestPoint_ s = Some last → dist2 last P1 <= 4 →
     Shape.hitTestObject P1 types bubble w s
     = (w, s, Shape.hitTestResult_ s))
  ∧ (memo_far (Shape.hitTestPoint_ s) P1 →
     ∃ w1 s1 r1,
       Shape.hitTestObject P1 types bubble w s = (w1, s1, r1)
       ∧ Shape.hitTestPoint_ s1 = Some P1
       ∧ Shape.hitTestResult_ s1 = r1
       ∧ trace w1 = trace w ++ [GraphicsHitTest g
                                  (inverse_transformPoint (Shape.base s) P1)]
       ∧ (dist2 P1 P2 <= 4 →
          Shape.hitTestObject P2 types bubble w1 s1 = (w1, s1, r1))
       ∧ (4 < dist2 P1 P2 →
          ∃ w2 s2 r2,
            Shape.hitTestObject P2 types bubble w1 s1 = (w2, s2, r2)
            ∧ Shape.hitTestPoint_ s2 = Some P2
            ∧ Shape.hitTestResult_ s2 = r2
            ∧ trace w2
              = trace w1 ++ [GraphicsHitTest g
                               (inverse_transformPoint (Shape.base s) P2)]))
  ∧ (∀ last, Bitmap.hitTestPoint_ b = Some last → dist2 last P1 <= 4 →
     Bitmap.hitTestObject P1 types bubble wb b
     = (wb, b, Bitmap.hitTestResult_ b))
  ∧ (memo_far (Bitmap.hitTestPoint_ b) P1 →
     ∃ w1 b1 r1,
       Bitmap.hitTestObject P1 types bubble wb b = (w1, b1, r1)
       ∧ Bitmap.hitTestPoint_ b1 = Some P1
       ∧ Bitmap.hitTestResult_ b1 = r1
       ∧ trace w1 = trace wb ++ probe_calls P1 wb b
       ∧ (dist2 P1 P2 <= 4 →
          Bitmap.hitTestObject P2 types bubble w1 b1 = (w1, b1, r1))
       ∧ (4 < dist2 P1 P2 →
          ∃ w2 b2 r2,
            Bitmap.hitTestObject P2 types bubble w1 b1 = (w2, b2, r2)
            ∧ Bitmap.hitTestPoint_ b2 = Some P2
            ∧ Bitmap.hitTestResult_ b2 = r2
            ∧ trace w2
              = trace w1
                ++ [DrawImage (Bitmap.image_ b) (- px (probe_local P2 wb b))
                              (- py (probe_local P2 wb b));
                    GetImageData])).
Proof.
  intros Ho1 Ho2 Hg Hb1 Hb2. split; [|split; [|split]].
  - intros last Hp Hd. eapply Shape_hit_near; eassumption.
  - intros Hfar.
    rewrite (Shape_hit_far P1 types bubble w s o1 g Ho1 Hg Hfar). cbv zeta.
    eexists _, _, _. split; [reflexivity|].
    split; [reflexivity|]. split; [reflexivity|]. split; [reflexivity|].
    split.
    + intros Hd.
      eapply Shape_hit_near; [exact Ho2|exact Hg|reflexivity|exact Hd].
    + intros Hd.
      erewrite (Shape_hit_far P2 types bubble _ _ o2 g);
        [|exact Ho2|exact Hg|exact Hd].
      cbv zeta. eexists _, _, _. split; [reflexivity|].
      repeat split.
  - intros last Hp Hd. eapply Bitmap_hit_near; eassumption.
  - intros Hfar.
    destruct (Bitmap_hit_far P1 types bubble wb b ob1 Hb1 Hfar)
      as (w1 & Hhit & Htr & Hrects & Hctx).
    rewrite Hhit. eexists _, _, _. split; [reflexivity|].
    split; [reflexivity|]. split; [reflexivity|]. split; [exact Htr|].
    split.
    + intros Hd.
      eapply Bitmap_hit_near; [exact Hb2|reflexivity|exact Hd].
    + intros Hd.
      match goal with
      | |- context [Bitmap.hitTestObject P2 types bubble w1 ?b1] =>
          destruct (Bitmap_hit_far P2 types bubble w1 b1 ob2 Hb2 Hd)
            as (w2 & Hhit2 & Htr2 & _ & _)
      end.
      rewrite Hhit2. eexists _, _, _. split; [reflexivity|].
      split; [reflexivity|]. split; [reflexivity|].
      rewrite Htr2. unfold probe_calls, probe_local. cbn.
      rewrite Hrects. destruct Hctx as [c ->]. reflexivity.
Qed.

End HitTest.

(** ** The code at concrete inputs *)

Section Examples.
Local Existing Instance plain_stage.





Lemma handleEvent_failure_witness :
  "error"%string ≠ "load"%string
  ∧ ∃ w' b',
      Bitmap.handleEvent "error" image_64x32 empty_world filtered_bitmap
      = Return (w', b')
      ∧ trace w' = [RemoveListeners image_64x32]
      ∧ Bitmap.ready_ b' = false
      ∧ Bitmap.getImage b' = None
      ∧ Bitmap.isVisible b' = false.
Proof.
  assert (Hne : "error"%string ≠ "load"%string) by discriminate.
  split; [exact Hne|].
  exact (handleEvent_failure "error" image_64x32 empty_world filtered_bitmap
                             Hne).
Defined.

Lemma layout_without_graphics_witness :
  let s := snd (Shape.handleDetach two_graphics mask_shape) in
  Shape.graphics_ s = None
  ∧ Shape.layout 1%positive None 3 0 1 two_graphics s = (two_graphics, s, 0).
Proof.
  intros s. split; [reflexivity|].
  exact (layout_without_graphics 1%positive None 3 0 1 two_graphics s
                                 eq_refl).
Defined.

Lemma setGraphics_marks_owners_witness :
  let w' := fst (Shape.setGraphics (Some 2%positive) two_graphics mask_shape) in
  let s' := snd (Shape.setGraphics (Some 2%positive) two_graphics mask_shape) in
  owners (Shape.base mask_shape) = Some [7%positive]
  ∧ compositionId (Shape.base mask_shape) ≠ 0
  ∧ Shape.getGraphics s' = Some 2%positive
  ∧ boundingBox (Shape.base s')
    = {| minX := 1; minY := 2; maxX := 3; maxY := 4 |}
  ∧ trace w' = [SetDirty 7%positive 8]
  ∧ marks 7%positive 8 (trace w') = 1%nat.
Proof.
  intros w' s'.
  assert (Hne : [7%positive] ≠ []) by discriminate.
  assert (Hcomp : compositionId (Shape.base mask_shape) ≠ 0) by discriminate.
  destruct (setGraphics_marks_owners 2%positive two_graphics mask_shape
              [7%positive] eq_refl Hne Hcomp)
    as (Hg & Hbox & Htr & _ & _ & Hone & _).
  split; [reflexivity|]. split; [exact Hcomp|]. split; [exact Hg|].
  split; [exact Hbox|].
  split; [exact (Hone 7%positive eq_refl)|].
  unfold w'. rewrite (Hone 7%positive eq_refl). reflexivity.
Defined.

Lemma setGraphics_without_owners_witness :
  let s := Shape.set_base DisplayObject_new mask_shape in
  owners (Shape.base s) = None
  ∧ Shape.setGraphics (Some 2%positive) two_graphics s = (two_graphics, s)
  ∧ fst (Shape.setGraphics (Some 2%positive) two_graphics orphan_shape)
    = two_graphics.
Proof.
  intros s.
  destruct (setGraphics_without_owners (Some 2%positive) two_graphics s)
    as [Hnull _].
  destruct (setGraphics_without_owners (Some 2%positive) two_graphics
                                       orphan_shape) as [_ Hempty].
  split; [reflexivity|]. split; [exact (Hnull eq_refl)|].
  exact (proj1 (Hempty eq_refl)).
Defined.

(** On a Shape whose owners array is empty and whose composition id is not 0,
    [setGraphics] replaces the geometry and the bounding box. *)
Lemma setGraphics_empty_owners_counterexample :
  ¬ (∀ (C : Collaborators) (graphics : option loc) (w : World) (s : Shape.t),
       owners (Shape.base s) = None ∨ owners (Shape.base s) = Some [] →
       Shape.setGraphics graphics w s = (w, s)).
Proof.
  intros Hclaim.
  specialize (Hclaim plain_stage (Some 2%positive) two_graphics orphan_shape
                     (or_intror eq_refl)).
  discriminate Hclaim.
Qed.

Lemma attach_detach_roundtrip_witness :
  Shape.graphics_ mask_shape = Some 1%positive
  ∧ ∃ w1 s1 w2 s2,
      Shape.handleAttach 1 two_graphics mask_shape = Return (w1, s1)
      ∧ Shape.handleDetach w1 s1 = (w2, s2)
      ∧ cached (gfx w1 !!! 1%positive) = true
      ∧ cached (gfx w2 !!! 1%positive) = false
      ∧ cached (gfx w2 !!! 2%positive) = false
      ∧ Shape.handleDetach w2 s2 = (w2, s2).
Proof.
  split; [reflexivity|].
  destruct (attach_detach_roundtrip two_graphics mask_shape
              empty_world filtered_bitmap) as (_ & Hshape & _).
  destruct (Hshape 1%positive eq_refl)
    as (w1 & s1 & Hatt & _ & _ & Hcached & Hidem).
  exists w1, s1, (fst (Shape.handleDetach w1 s1)),
    (snd (Shape.handleDetach w1 s1)).
  split; [exact Hatt|]. split; [apply surjective_pairing|].
  split; [injection Hatt as <- _; reflexivity|].
  split; [apply Hcached; left; reflexivity|].
  split; [apply Hcached; right; left|exact Hidem].
Defined.

(** A Shape after [onDetach()] throws on [onAttach(1)]; a Bitmap whose image
    failed to load keeps its renderer pointer over [onAttach(1)] and
    [onDetach()]. *)
Lemma attach_detach_roundtrip_counterexample :
  ¬ (∀ (C : Collaborators) (w : World) (s : Shape.t),
       ∃ w1 s1, Shape.handleAttach 1 w s = Return (w1, s1))
  ∧ ¬ (∀ (C : Collaborators) (w : World) (b : Bitmap.t),
         Bitmap.output_
           (snd (Bitmap.handleDetach (fst (Bitmap.handleAttach 1 w b))
                                     (snd (Bitmap.handleAttach 1 w b))))
         = None).
Proof.
  split; intros Hclaim.
  - destruct (Hclaim plain_stage
                (fst (Shape.handleDetach two_graphics mask_shape))
                (snd (Shape.handleDetach two_graphics mask_shape)))
      as (w1 & s1 & Hatt).
    discriminate Hatt.
  - specialize (Hclaim plain_stage empty_world
                  (Bitmap.set_image_ None
                     (Bitmap.set_ready_ false filtered_bitmap))).
    discriminate Hclaim.
Qed.

Lemma offsets_centered_on_init_and_load_witness :
  let w := one_rect {| rx := 0; ry := 0; rwidth := 100; rheight := 100 |} in
  let b := snd (Bitmap.new (Some 1%positive) None w) in
  let w1 := fst (Bitmap.initializeBitmap_ (Bitmap.VImage image_64x32) w b) in
  let b1 := snd (Bitmap.initializeBitmap_ (Bitmap.VImage image_64x32) w b) in
  Bitmap.nominalBounds b1 = Some 1%positive
  ∧ buffer_sized b1
  ∧ Bitmap.drawValues_ b1
    = Some (map F32 [0; 0; 64; 32; 18; 34; 64; 32; 0; 0; 0; 0])
  ∧ offsetX_centered w1 b1 image_64x32
  ∧ offsetY_centered w1 b1 image_64x32
  ∧ (∃ w2 b2, Bitmap.handleEvent "load" image_10x10 w1 b1 = Return (w2, b2)
       ∧ offsetX_centered w2 b2 image_10x10
       ∧ offsetY_centered w2 b2 image_10x10)
  ∧ Bitmap.drawValues_ (snd (Bitmap.setImage (Some image_10x10) w1 b1))
    = Bitmap.drawValues_ b1.
Proof.
  intros w b w1 b1.
  assert (Hsized : buffer_sized b1) by (right; reflexivity).
  destruct (offsets_centered_on_init_and_load (Bitmap.VImage image_64x32)
              image_10x10 image_10x10 1%positive w b 1%positive eq_refl
              eq_refl)
    as ((Hix & Hiy) & _).
  destruct (offsets_centered_on_init_and_load (Bitmap.VImage image_64x32)
              image_10x10 image_10x10 1%positive w1 b1 1%positive eq_refl
              Hsized)
    as (_ & Hload & _ & Himage).
  split; [reflexivity|]. split; [exact Hsized|]. split; [reflexivity|].
  split; [apply Hix; vm_compute; discriminate|].
  split; [apply Hiy; vm_compute; discriminate|].
  split; [|exact Himage].
  destruct (Hload 2%positive eq_refl) as (w2 & b2 & Hev & Hcx & Hcy).
  exists w2, b2. split; [exact Hev|].
  injection Hev as <- <-.
  split; [apply Hcx|apply Hcy]; vm_compute; discriminate.
Defined.

(** The halving wraps at 32 bits, the slot rounds beyond 2^24, and
    [setImage] keeps the offsets of the image it replaces. *)
Lemma offsets_centered_counterexample :
  ¬ (∀ (C : Collaborators) (value : Bitmap.Value) (w : World) (b : Bitmap.t),
       offsets_centered (fst (Bitmap.initializeBitmap_ value w b))
                        (snd (Bitmap.initializeBitmap_ value w b))
                        (resolve value))
  ∧ ¬ (∀ (C : Collaborators) (value : Bitmap.Value) (w : World)
         (b : Bitmap.t) (nb : loc),
         Bitmap.nominalBounds b = Some nb →
         rwidth (rects (fst (Bitmap.initializeBitmap_ value w b)) !!! nb)
         - image_width (resolve value) < 2 ^ 31 →
         offsetX_centered (fst (Bitmap.initializeBitmap_ value w b))
                          (snd (Bitmap.initializeBitmap_ value w b))
                          (resolve value))
  ∧ ¬ (∀ (C : Collaborators) (image : Image) (w : World) (b : Bitmap.t),
         offsets_centered (fst (Bitmap.setImage (Some image) w b))
                          (snd (Bitmap.setImage (Some image) w b)) image).
Proof.
  split; [|split]; intros Hclaim.
  - specialize (Hclaim plain_stage
      (Bitmap.VImage {| image_id := 2; image_width := 1; image_height := 10 |})
      (one_rect {| rx := 0; ry := 0; rwidth := 2 ^ 32 + 1; rheight := 10 |})
      (snd (Bitmap.new (Some 1%positive) None empty_world))
      1%positive eq_refl).
    destruct Hclaim as (dv & Hdv & H4 & _).
    vm_compute in Hdv. injection Hdv as <-. vm_compute in H4. discriminate H4.
  - assert (Hlt : 33554435 - 1 < 2 ^ 31) by reflexivity.
    specialize (Hclaim plain_stage
      (Bitmap.VImage {| image_id := 2; image_width := 1; image_height := 10 |})
      (one_rect {| rx := 0; ry := 0; rwidth := 33554435; rheight := 10 |})
      (snd (Bitmap.new (Some 1%positive) None empty_world))
      1%positive eq_refl Hlt 1%positive eq_refl).
    destruct Hclaim as (dv & Hdv & H4).
    vm_compute in Hdv. injection Hdv as <-. vm_compute in H4. discriminate H4.
  - pose (w := one_rect {| rx := 0; ry := 0; rwidth := 100; rheight := 100 |}).
    specialize (Hclaim plain_stage image_10x10
      (fst (Bitmap.new (Some 1%positive)
                       (Some (Bitmap.VImage image_64x32)) w))
      (snd (Bitmap.new (Some 1%positive)
                       (Some (Bitmap.VImage image_64x32)) w))
      1%positive eq_refl).
    destruct Hclaim as (dv & Hdv & H4 & _).
    vm_compute in Hdv. injection Hdv as <-. vm_compute in H4. discriminate H4.
Qed.

Lemma hit_test_memo_witness :
  let P1 := {| px := 0; py := 0 |} in
  let P2 := {| px := 1; py := 1 |} in
  let P3 := {| px := 5; py := 0 |} in
  memo_far (Shape.hitTestPoint_ mask_shape) P1
  ∧ dist2 P1 P2 <= 4
  ∧ 4 < dist2 P1 P3
  ∧ ∃ w1 s1 r1 w3 s3 r3,
      Shape.hitTestObject P1 0 false two_graphics mask_shape = (w1, s1, r1)
      ∧ Shape.hitTestObject P2 0 false w1 s1 = (w1, s1, r1)
      ∧ Shape.hitTestObject P3 0 false w1 s1 = (w3, s3, r3)
      ∧ trace w3 = trace w1 ++ [GraphicsHitTest 1%positive P3]
      ∧ Shape.hitTestPoint_ s3 = Some P3.
Proof.
  intros P1 P2 P3.
  assert (Hnear : dist2 P1 P2 <= 4) by (vm_compute; discriminate).
  assert (Hfar : 4 < dist2 P1 P3) by reflexivity.
  split; [exact I|]. split; [exact Hnear|]. split; [exact Hfar|].
  destruct (@hit_test_memo plain_stage P1 P2 0 false two_graphics mask_shape 1%positive
              1%positive 1%positive empty_world filtered_bitmap 1%positive
              1%positive eq_refl eq_refl eq_refl eq_refl eq_refl)
    as (_ & Hshape & _).
  destruct (Hshape I) as (w1 & s1 & r1 & Hq1 & _ & _ & _ & Hq2 & _).
  destruct (@hit_test_memo plain_stage P1 P3 0 false two_graphics mask_shape 1%positive
              1%positive 1%positive empty_world filtered_bitmap 1%positive
              1%positive eq_refl eq_refl eq_refl eq_refl eq_refl)
    as (_ & Hshape3 & _).
  destruct (Hshape3 I) as (w1' & s1' & r1' & Hq1' & _ & _ & _ & _ & Hq3).
  rewrite Hq1 in Hq1'. injection Hq1' as <- <- <-.
  destruct (Hq3 Hfar) as (w3 & s3 & r3 & Hhit3 & Hp3 & _ & Htr3).
  exists w1, s1, r1, w3, s3, r3.
  split; [exact Hq1|]. split; [exact (Hq2 Hnear)|]. split; [exact Hhit3|].
  split; [exact Htr3|exact Hp3].
Defined.

(** The memoized point stays where the last sampling query put it: after a
    sample at (0, 0), the queries at (2, 0) and (4, 0) are 2 apart, and the
    second of them samples again and gets another result; the queries at
    (2, 0) and (-1, 0) are 3 apart, and the second of them neither samples nor
    moves the memoized point. *)
Lemma hit_test_memo_counterexample :
  ¬ (∀ (C : Collaborators) (P1 P2 : Point) (types : Z) (bubble : bool)
       (w : World) (s : Shape.t) (g o1 o2 : loc),
       DisplayObject_hitTestObject (Shape.base s) P1 types bubble = Some o1 →
       DisplayObject_hitTestObject (Shape.base s) P2 types bubble = Some o2 →
       Shape.graphics_ s = Some g →
       dist2 P1 P2 <= 4 →
       let '(w1, s1, r1) := Shape.hitTestObject P1 types bubble w s in
       let '(w2, s2, r2) := Shape.hitTestObject P2 types bubble w1 s1 in
       r2 = r1 ∧ trace w2 = trace w1)
  ∧ ¬ (∀ (C : Collaborators) (P1 P2 : Point) (types : Z) (bubble : bool)
         (w : World) (s : Shape.t) (g o1 o2 : loc),
         DisplayObject_hitTestObject (Shape.base s) P1 types bubble = Some o1 →
         DisplayObject_hitTestObject (Shape.base s) P2 types bubble = Some o2 →
         Shape.graphics_ s = Some g →
         4 < dist2 P1 P2 →
         let '(w1, s1, r1) := Shape.hitTestObject P1 types bubble w s in
         let '(w2, s2, r2) := Shape.hitTestObject P2 types bubble w1 s1 in
         Shape.hitTestPoint_ s2 = Some P2 ∧ trace w2 ≠ trace w1).
Proof.
  pose (s0 := snd (fst (Shape.hitTestObject {| px := 0; py := 0 |} 0 false
                          two_graphics mask_shape))).
  assert (Hnear : dist2 {| px := 2; py := 0 |} {| px := 4; py := 0 |} <= 4)
    by (vm_compute; discriminate).
  assert (Hfar : 4 < dist2 {| px := 2; py := 0 |} {| px := -1; py := 0 |})
    by reflexivity.
  split; intros Hclaim.
  - pose proof (Hclaim plain_stage {| px := 2; py := 0 |}
                       {| px := 4; py := 0 |} 0 false two_graphics s0
                       1%positive 1%positive 1%positive
                       eq_refl eq_refl eq_refl Hnear) as [Hres _].
    discriminate Hres.
  - pose proof (Hclaim plain_stage {| px := 2; py := 0 |}
                       {| px := -1; py := 0 |} 0 false two_graphics s0
                       1%positive 1%positive 1%positive
                       eq_refl eq_refl eq_refl Hfar) as [Hmemo _].
    discriminate Hmemo.
Qed.

End Examples.

(** * Further properties of the code *)

(** ** Shape: attach, detach and what a detached Shape does *)

Section ShapeLifecycle.
Context `{Collaborators}.

Lemma Graphics_cache_box (m g : loc) (flag : Z) (w : World) :
  box (gfx (Graphics_cache m flag w) !!! g) = box (gfx w !!! g).
Proof.
  unfold Graphics_cache. cbn. destruct (decide (m = g)) as [->|Hne].
  - rewrite lookup_total_insert_eq. reflexivity.
  - rewrite lookup_total_insert_ne by assumption. reflexivity.
Qed.

Lemma Graphics_cache_cached (m g : loc) (flag : Z) (w : World) :
  cached (gfx (Graphics_cache m flag w) !!! g)
  = if decide (m = g) then true else cached (gfx w !!! g).
Proof.
  unfold Graphics_cache. cbn. destruct (decide (m = g)) as [->|Hne].
  - rewrite lookup_total_insert_eq. reflexivity.
  - rewrite lookup_total_insert_ne by assumption. reflexivity.
Qed.

Lemma cache_each_box (ms : list loc) (g : loc) (flag : Z) (w : World) :
  box (gfx (Shape.cache_each ms flag w) !!! g) = box (gfx w !!! g).
Proof.
  revert w. induction ms as [|m ms IH]; intros w; [reflexivity|].
  cbn [Shape.cache_each]. rewrite IH. apply Graphics_cache_box.
Qed.

Lemma cache_each_cached (ms : list loc) (g : loc) (flag : Z) (w : World) :
  cached (gfx (Shape.cache_each ms flag w) !!! g)
  = if decide (g ∈ ms) then true else cached (gfx w !!! g).
Proof.
  revert w. induction ms as [|m ms IH]; intros w; cbn [Shape.cache_each].
  - rewrite decide_False by apply not_elem_of_nil. reflexivity.
  - rewrite IH, Graphics_cache_cached.
    destruct (decide (g ∈ ms)) as [Hin|Hnotin].
    + rewrite decide_True by (right; exact Hin). reflexivity.
    + destruct (decide (m = g)) as [->|Hne].
      * rewrite decide_True by left. reflexivity.
      * rewrite decide_False; [reflexivity|].
        intros [->|Hin]%elem_of_cons; [congruence|contradiction].
Qed.

Lemma cache_each_trace (ms : list loc) (flag : Z) (w : World) :
  trace (Shape.cache_each ms flag w) = trace w ++ cache_calls flag ms
  ∧ rects (Shape.cache_each ms flag w) = rects w
  ∧ composers (Shape.cache_each ms flag w) = composers w.
Proof.
  revert w. induction ms as [|m ms IH]; intros w; cbn [Shape.cache_each].
  - rewrite app_nil_r. auto.
  - destruct (IH (Graphics_cache m flag w)) as (-> & -> & ->). cbn.
    rewrite <- app_assoc. auto.
Qed.

Lemma uncache_each_trace (ms : list loc) (w : World) :
  trace (Shape.uncache_each ms w) = trace w ++ uncache_calls ms
  ∧ rects (Shape.uncache_each ms w) = rects w
  ∧ composers (Shape.uncache_each ms w) = composers w.
Proof.
  revert w. induction ms as [|m ms IH]; intros w; cbn [Shape.uncache_each].
  - rewrite app_nil_r. auto.
  - destruct (IH (Graphics_uncache m w)) as (-> & -> & ->). cbn.
    rewrite <- app_assoc. auto.
Qed.

(** X1. [handleAttach] throws a TypeError exactly when the Shape holds no
    geometry, whatever the flag.  When it returns, the bounding box is the
    geometry's box, also for flag 0, and geometry, masks and memo are kept;
    with flag 0 the world is untouched: nothing is cached and nothing is
    called. *)
Theorem Shape_handleAttach_outcome (flag : Z) (w : World) (s : Shape.t) :
  match Shape.graphics_ s with
  | None => Shape.handleAttach flag w s = Throw TypeError
  | Some g =>
    ∃ w' s',
      Shape.handleAttach flag w s = Return (w', s')
      ∧ boundingBox (Shape.base s') = box (gfx w !!! g)
      ∧ box (gfx w' !!! g) = box (gfx w !!! g)
      ∧ Shape.graphics_ s' = Some g
      ∧ Shape.masks_ s' = Shape.masks_ s
      ∧ Shape.hitTestPoint_ s' = Shape.hitTestPoint_ s
      ∧ dirty (Shape.base s') = dirty (Shape.base s)
      ∧ (flag = 0 → w' = w)
  end.
Proof.
  unfold Shape.handleAttach, Shape.getGraphics.
  destruct (Shape.graphics_ s) as [g|] eqn:Hg; [|reflexivity].
  eexists _, _. split; [reflexivity|].
  set (w1 := if truthy flag then _ else w).
  assert (Hbox : box (gfx w1 !!! g) = box (gfx w !!! g)).
  { unfold w1. destruct (truthy flag); [|reflexivity].
    destruct (Shape.masks_ s) as [ms|];
      [destruct (truthy (js_and flag 2))|];
      rewrite ?cache_each_box; apply Graphics_cache_box. }
  cbn. rewrite box_eta, Hg. repeat split; try assumption.
  intros ->. reflexivity.
Qed.

(** X2. With a geometry and a non-zero flag, [handleAttach] asks the geometry
    to cache itself and, when bit 1 of the flag is set, every mask after it,
    in order, and makes no other call.  Afterwards the geometry is cached;
    with bit 1 set so is every mask, and with bit 1 clear any other Graphics
    object keeps the cache state it had. *)
Theorem Shape_handleAttach_caches (flag : Z) (w : World) (s : Shape.t)
    (g : loc) :
  Shape.graphics_ s = Some g →
  flag ≠ 0 →
  ∃ w' s',
    Shape.handleAttach flag w s = Return (w', s')
    ∧ cached (gfx w' !!! g) = true
    ∧ rects w' = rects w
    ∧ (js_and flag 2 ≠ 0 →
         trace w' = trace w ++ cache_calls flag (held s)
         ∧ ∀ m, m ∈ held s → cached (gfx w' !!! m) = true)
    ∧ (js_and flag 2 = 0 →
         trace w' = trace w ++ [GraphicsCache g flag]
         ∧ ∀ m, m ≠ g → cached (gfx w' !!! m) = cached (gfx w !!! m)).
Proof.
  intros Hg Hflag. unfold Shape.handleAttach, Shape.getGraphics, held.
  rewrite Hg. unfold truthy at 1.
  apply Z.eqb_neq in Hflag. rewrite Hflag. cbn [negb].
  eexists _, _. split; [reflexivity|].
  destruct (Shape.masks_ s) as [ms|]; cbn [default app].
  - unfold truthy. destruct (Z.eqb_spec (js_and flag 2) 0) as [Hbit|Hbit];
      cbn [negb].
    + split; [rewrite Graphics_cache_cached, decide_True; reflexivity|].
      split; [reflexivity|]. split; [intros Hne; contradiction|].
      intros _. split; [reflexivity|].
      intros m Hm. rewrite Graphics_cache_cached, decide_False by congruence.
      reflexivity.
    + destruct (cache_each_trace ms flag (Graphics_cache g flag w))
        as (Htr & Hrects & _).
      split.
      { rewrite cache_each_cached, Graphics_cache_cached.
        rewrite (decide_True (P := g = g)) by reflexivity.
        destruct (decide (g ∈ ms)); reflexivity. }
      split; [rewrite Hrects; reflexivity|].
      split; [|intros Hz; contradiction].
      intros _. split.
      { rewrite Htr. cbn. rewrite <- app_assoc. reflexivity. }
      intros m Hm. rewrite cache_each_cached, Graphics_cache_cached.
      destruct (decide (m ∈ ms)); [reflexivity|].
      apply elem_of_cons in Hm as [->|Hm]; [|contradiction].
      rewrite decide_True; reflexivity.
  - split; [rewrite Graphics_cache_cached, decide_True; reflexivity|].
    split; [reflexivity|]. split.
    + intros _. split; [reflexivity|].
      intros m Hm. apply list_elem_of_singleton in Hm as ->.
      rewrite Graphics_cache_cached, decide_True; reflexivity.
    + intros _. split; [reflexivity|].
      intros m Hm. rewrite Graphics_cache_cached, decide_False by congruence.
      reflexivity.
Qed.

End ShapeLifecycle.

Section ShapeBehaviour.
Context `{Collaborators}.

Lemma Graphics_uncache_fields (m : loc) (w : World) :
  trace (Graphics_uncache m w) = trace w ++ [GraphicsUncache m]
  ∧ rects (Graphics_uncache m w) = rects w
  ∧ composers (Graphics_uncache m w) = composers w.
Proof. repeat split. Qed.

(** X3. [handleDetach] asks exactly the Graphics objects the Shape holds to
    drop their caches, the geometry first and then the masks in order, and
    calls nothing else.  Afterwards every Graphics object that was held is
    without a cache and every other one keeps the cache state it had; the
    Shape keeps its base fields and its hit-test memo. *)
Theorem Shape_handleDetach_calls (w : World) (s : Shape.t) :
  let w' := fst (Shape.handleDetach w s) in
  let s' := snd (Shape.handleDetach w s) in
  trace w' = trace w ++ uncache_calls (held s)
  ∧ rects w' = rects w
  ∧ (∀ g, cached (gfx w' !!! g)
          = if decide (g ∈ held s) then false else cached (gfx w !!! g))
  ∧ held s' = []
  ∧ Shape.base s' = Shape.base s
  ∧ Shape.hitTestPoint_ s' = Shape.hitTestPoint_ s
  ∧ Shape.hitTestResult_ s' = Shape.hitTestResult_ s.
Proof.
  cbv zeta. split; [|split; [|split]].
  - unfold Shape.handleDetach, held.
    destruct s as [o [g|] [ms|] hp hr]; cbn -[Graphics_uncache];
      rewrite ?app_nil_r; try reflexivity.
    + destruct (uncache_each_trace ms (Graphics_uncache g w)) as (-> & _).
      cbn. rewrite <- app_assoc. reflexivity.
    + destruct (uncache_each_trace ms w) as (-> & _). reflexivity.
  - unfold Shape.handleDetach.
    destruct s as [o [g|] [ms|] hp hr]; cbn -[Graphics_uncache];
      try reflexivity.
    + destruct (uncache_each_trace ms (Graphics_uncache g w)) as (_ & -> & _).
      reflexivity.
    + destruct (uncache_each_trace ms w) as (_ & -> & _). reflexivity.
  - intros g. rewrite Shape_handleDetach_cached. unfold held.
    destruct s as [o [g0|] [ms|] hp hr]; cbn;
      repeat case_decide; try reflexivity; exfalso;
      repeat match goal with
             | Hor : _ ∨ _ |- _ => destruct Hor
             | Hin : _ ∈ [] |- _ => inversion Hin
             | Hin : _ ∈ _ :: _ |- _ => apply elem_of_cons in Hin
             | Hn : ¬ (_ ∈ _ :: _) |- _ => apply not_elem_of_cons in Hn as [? ?]
             | Hn : ¬ (_ ∨ _) |- _ =>
                 apply Decidable.not_or in Hn as [? ?]
             end; simplify_eq; tauto.
  - unfold Shape.handleDetach, held.
    destruct s as [o [g|] [ms|] hp hr]; cbn; repeat split.
Qed.

(** X4. A Shape that has been detached (or had its children removed) is
    inert: it is invisible, [layout] returns 0 and changes nothing, the hit
    test passes the base class's answer on without sampling, and both
    [handleAttach] and [paintObject] throw a TypeError. *)
Theorem Shape_detached_is_inert (w w0 : World) (s : Shape.t) (flag : Z)
    (renderer : loc) (parent : option loc) (dirty time draw : Z)
    (point : Point) (types : Z) (bubble : bool) :
  let s' := snd (Shape.removeAllChildren w0 s) in
  Shape.removeAllChildren w0 s = Shape.handleDetach w0 s
  ∧ Shape.isVisible w s' = false
  ∧ Shape.layout renderer parent dirty time draw w s' = (w, s', 0)
  ∧ Shape.hitTestObject point types bubble w s'
    = (w, s', DisplayObject_hitTestObject (Shape.base s') point types bubble)
  ∧ Shape.handleAttach flag w s' = Throw TypeError
  ∧ Shape_paintObject s' = Throw TypeError
  ∧ Shape.handleDetach w s' = (w, s').
Proof.
  cbv zeta. unfold Shape.removeAllChildren.
  destruct (Shape_handleDetach_fields w0 s) as [Hg Hm].
  set (s' := snd (Shape.handleDetach w0 s)) in *.
  split; [reflexivity|].
  unfold Shape.isVisible, Shape.layout, Shape.hitTestObject,
    Shape.handleAttach, Shape.getGraphics, Shape_paintObject.
  rewrite Hg. repeat split.
  - destruct (DisplayObject_hitTestObject _ _ _ _); reflexivity.
  - apply Shape_handleDetach_released; assumption.
Qed.

(** X5. [addGraphics] only appends: a null argument changes nothing, and a
    Graphics object is put behind the masks already listed, with the geometry
    and everything else kept.  The object added is then cached by an attach
    whose flag has bit 1 set and released by the detach that follows. *)
Theorem Shape_addGraphics_appends (m g : loc) (flag : Z) (w : World)
    (s : Shape.t) :
  Shape.graphics_ s = Some g →
  js_and flag 2 ≠ 0 →
  flag ≠ 0 →
  Shape.addGraphics None s = s
  ∧ held (Shape.addGraphics (Some m) s) = held s ++ [m]
  ∧ Shape.base (Shape.addGraphics (Some m) s) = Shape.base s
  ∧ ∃ w1 s1,
      Shape.handleAttach flag w (Shape.addGraphics (Some m) s)
      = Return (w1, s1)
      ∧ cached (gfx w1 !!! m) = true
      ∧ cached (gfx (fst (Shape.handleDetach w1 s1)) !!! m) = false.
Proof.
  intros Hg Hbit Hflag. split; [reflexivity|].
  assert (Hheld : held (Shape.addGraphics (Some m) s) = held s ++ [m]).
  { unfold held, Shape.addGraphics. cbn. rewrite app_assoc. reflexivity. }
  split; [exact Hheld|]. split; [reflexivity|].
  unfold Shape.handleAttach, Shape.getGraphics.
  cbn [Shape.addGraphics Shape.set_masks_ Shape.graphics_ Shape.masks_].
  rewrite Hg. unfold truthy.
  apply Z.eqb_neq in Hflag, Hbit. rewrite Hflag, Hbit. cbn [negb].
  eexists _, _. split; [reflexivity|]. split.
  - rewrite cache_each_cached, decide_True; [reflexivity|].
    apply elem_of_app. right. left.
  - rewrite Shape_handleDetach_cached, decide_True; [reflexivity|].
    right. cbn. apply elem_of_app. right. left.
Qed.

(** X6. [setGraphics] takes effect only on a Shape that has an owners array
    and a non-zero composition id: otherwise [getGraphics] keeps returning
    the old geometry.  It never touches the masks, the hit-test memo, the
    rectangles or the Graphics objects, and with a null argument it marks no
    owner and leaves the bounding box as it is. *)
Theorem Shape_setGraphics_only_for_masks (graphics : option loc) (w : World)
    (s : Shape.t) :
  let w' := fst (Shape.setGraphics graphics w s) in
  let s' := snd (Shape.setGraphics graphics w s) in
  Shape.getGraphics s'
    = (if bool_decide (is_Some (owners (Shape.base s)))
          && truthy (compositionId (Shape.base s))
       then graphics else Shape.getGraphics s)
  ∧ Shape.masks_ s' = Shape.masks_ s
  ∧ Shape.hitTestPoint_ s' = Shape.hitTestPoint_ s
  ∧ Shape.hitTestResult_ s' = Shape.hitTestResult_ s
  ∧ dirty (Shape.base s') = dirty (Shape.base s)
  ∧ owners (Shape.base s') = owners (Shape.base s)
  ∧ rects w' = rects w
  ∧ gfx w' = gfx w
  ∧ (graphics = None → w' = w ∧ Shape.base s' = Shape.base s)
  ∧ (compositionId (Shape.base s) = 0 →
       Shape.setGraphics graphics w s = (w, s)).
Proof.
  cbv zeta. unfold Shape.setGraphics, Shape.getGraphics.
  destruct (owners (Shape.base s)) as [os|] eqn:Hos.
  - rewrite bool_decide_true by eauto. cbn [andb].
    destruct (truthy (compositionId (Shape.base s))) eqn:Hc.
    + destruct graphics as [g|]; cbn [fst snd];
        rewrite ?setDirty_each_spec; cbn; split_and!; try reflexivity;
        try exact Hos.
      * intros Hnull. discriminate Hnull.
      * intros Hz. rewrite Hz in Hc. discriminate Hc.
      * intros _. split; reflexivity.
      * intros Hz. rewrite Hz in Hc. discriminate Hc.
    + cbn. split_and!; try reflexivity; try exact Hos.
      intros _. split; reflexivity.
  - rewrite bool_decide_false by (intros [? ?]; discriminate).
    cbn. split_and!; try reflexivity; try exact Hos.
    intros _. split; reflexivity.
Qed.

Lemma land_lor_absorb (a b : Z) : Z.land (Z.lor a b) b = b.
Proof.
  apply Z.bits_inj'. intros n Hn.
  rewrite Z.land_spec, Z.lor_spec.
  destruct (Z.testbit a n), (Z.testbit b n); reflexivity.
Qed.

Lemma land_lor_keep (a b : Z) : Z.land (Z.lor a b) a = a.
Proof.
  apply Z.bits_inj'. intros n Hn.
  rewrite Z.land_spec, Z.lor_spec.
  destruct (Z.testbit a n), (Z.testbit b n); reflexivity.
Qed.

(** X7. With a geometry, [layout] calls the base layout exactly once, with
    the arguments it was given, and returns its result.  The node handed to
    the base layout is the node itself when the geometry is not dirty; when
    it is dirty the node handed over has all bits of [DIRTY_SHAPE] set in its
    dirty mask, none of the earlier bits cleared, and the geometry's box as
    bounding box.  Geometry, masks, memo and the stores are not touched. *)
Theorem Shape_layout_with_graphics (renderer : loc) (parent : option loc)
    (dirty0 time draw : Z) (w : World) (s : Shape.t) (g : loc) :
  Shape.graphics_ s = Some g →
  ∃ o,
    Shape.layout renderer parent dirty0 time draw w s
    = (emit (SuperLayout dirty0 time draw) w,
       Shape.set_base
         (fst (DisplayObject_layout o renderer parent dirty0 time draw)) s,
       snd (DisplayObject_layout o renderer parent dirty0 time draw))
    ∧ (isDirty (gfx w !!! g) = false → o = Shape.base s)
    ∧ (isDirty (gfx w !!! g) = true →
         Z.land (dirty o) DIRTY_SHAPE = DIRTY_SHAPE
         ∧ Z.land (dirty o) (dirty (Shape.base s)) = dirty (Shape.base s)
         ∧ boundingBox o = box (gfx w !!! g)
         ∧ owners o = owners (Shape.base s)
         ∧ compositionId o = compositionId (Shape.base s)).
Proof.
  intros Hg. unfold Shape.layout. rewrite Hg.
  destruct (isDirty (gfx w !!! g)) eqn:Hd.
  - eexists. split.
    + cbn [Shape.base Shape.set_base].
      destruct (DisplayObject_layout _ _ _ _ _ _) as [o r] eqn:Hl.
      cbn. rewrite Hl. destruct s; reflexivity.
    + split; [discriminate|]. intros _. cbn.
      rewrite box_eta, land_lor_absorb, land_lor_keep. repeat split.
  - exists (Shape.base s). split.
    + destruct (DisplayObject_layout _ _ _ _ _ _) as [o r]. reflexivity.
    + split; [reflexivity|discriminate].
Qed.

(** X8. The Shape's hit test never samples when the base test misses or when
    no geometry is held: it then returns the base class's answer and changes
    nothing.  In every case it leaves the stores and the Shape's geometry,
    masks and base fields alone, makes at most one call, a pixel test of the
    geometry, and answers null, the base class's answer or the cached
    answer. *)
Theorem Shape_hitTestObject_frame (point : Point) (types : Z) (bubble : bool)
    (w : World) (s : Shape.t) :
  let object := DisplayObject_hitTestObject (Shape.base s) point types bubble in
  let w' := fst (fst (Shape.hitTestObject point types bubble w s)) in
  let s' := snd (fst (Shape.hitTestObject point types bubble w s)) in
  let r := snd (Shape.hitTestObject point types bubble w s) in
  (object = None ∨ Shape.graphics_ s = None →
     Shape.hitTestObject point types bubble w s = (w, s, object))
  ∧ gfx w' = gfx w ∧ rects w' = rects w ∧ composers w' = composers w
  ∧ Shape.base s' = Shape.base s
  ∧ Shape.graphics_ s' = Shape.graphics_ s
  ∧ Shape.masks_ s' = Shape.masks_ s
  ∧ (trace w' = trace w
     ∨ ∃ g, Shape.graphics_ s = Some g
         ∧ trace w'
           = trace w ++ [GraphicsHitTest g
                           (inverse_transformPoint (Shape.base s) point)])
  ∧ (r = None ∨ r = object ∨ r = Shape.hitTestResult_ s).
Proof.
  cbv zeta. unfold Shape.hitTestObject. rewrite point_eta.
  destruct (DisplayObject_hitTestObject _ _ _ _) as [o|] eqn:Ho;
    [|repeat split; auto].
  destruct (Shape.graphics_ s) as [g|] eqn:Hg;
    [|repeat split; auto].
  split; [intros [Hn|Hn]; discriminate|].
  destruct (Shape.hitTestPoint_ s) as [last|];
    [destruct (_ <=? 4)|]; cbn;
    (repeat split; try assumption; eauto);
    destruct (Graphics_hitTestObject _ _); auto.
Qed.

(** X9. A visible Shape can be painted: when [isVisible] answers true the
    Shape holds a geometry that is not empty, and [paintObject] returns after
    one [paint] call on that geometry.  [paintObject] throws a TypeError
    exactly when the geometry is null. *)
Theorem Shape_visible_paints (w : World) (s : Shape.t) :
  (Shape.isVisible w s = true →
     ∃ g, Shape.graphics_ s = Some g
       ∧ isEmpty (gfx w !!! g) = false
       ∧ DisplayObject_isVisible (Shape.base s) = true
       ∧ Shape_paintObject s = Return [Paint g])
  ∧ (Shape_paintObject s = Throw TypeError ↔ Shape.graphics_ s = None).
Proof.
  unfold Shape.isVisible, Shape_paintObject.
  destruct (Shape.graphics_ s) as [g|]; split.
  - intros [Hne Hv]%andb_true_iff. apply negb_true_iff in Hne. eauto.
  - split; discriminate.
  - discriminate.
  - split; reflexivity.
Qed.

(** X10. A constructed Shape always holds a geometry, so that
    [handleAttach] on it returns for every flag.  Without an argument the
    geometry is a new Graphics object: it is none of the objects in the
    store, which all stay as they are; with an argument the world is not
    touched. *)
Theorem Shape_new_holds_geometry (opt_graphics : option loc) (flag : Z)
    (w : World) :
  let w' := fst (Shape.new opt_graphics w) in
  let s := snd (Shape.new opt_graphics w) in
  (∃ g, Shape.graphics_ s = Some g
     ∧ match opt_graphics with
       | Some g0 => g = g0 ∧ w' = w
       | None =>
         gfx w !! g = None
         ∧ (∀ l, l ≠ g → gfx w' !! l = gfx w !! l)
         ∧ rects w' = rects w ∧ trace w' = trace w
       end)
  ∧ Shape.masks_ s = None
  ∧ Shape.hitTestPoint_ s = None
  ∧ ∃ w1 s1, Shape.handleAttach flag w' s = Return (w1, s1).
Proof.
  cbv zeta. unfold Shape.new, Shape.new_Graphics.
  destruct opt_graphics as [g0|]; cbn -[fresh].
  - split; [eauto|]. split; [reflexivity|]. split; [reflexivity|].
    unfold Shape.handleAttach. cbn. eauto.
  - split.
    + eexists. split; [reflexivity|]. split.
      * apply not_elem_of_dom. apply is_fresh.
      * split; [|split; reflexivity].
        intros l Hne. apply lookup_insert_ne. congruence.
    + split; [reflexivity|]. split; [reflexivity|].
      unfold Shape.handleAttach. cbn -[fresh]. eauto.
Qed.

End ShapeBehaviour.

(** ** Bitmap: composer, attach and detach *)

Section BitmapLifecycle.
Context `{Collaborators}.

Lemma Bitmap_handleAttach_inactive (flag : Z) (w : World) (b : Bitmap.t) :
  truthy flag = false ∨ Bitmap.ready_ b = false
  ∨ alphaMapFilter (Bitmap.base b) = None →
  Bitmap.handleAttach flag w b = (w, b).
Proof.
  unfold Bitmap.handleAttach. intros [-> | [-> | ->]]; [reflexivity| |].
  - rewrite orb_true_r. reflexivity.
  - destruct (_ || _); reflexivity.
Qed.

Lemma Bitmap_handleAttach_active (flag : Z) (w : World) (b : Bitmap.t)
    (alpha : Image) :
  truthy flag = true → Bitmap.ready_ b = true →
  alphaMapFilter (Bitmap.base b) = Some alpha →
  Bitmap.handleAttach flag w b
  = match Bitmap.composer_ b with
    | Some c => (emit (ApplyAlphaMap c (Bitmap.image_ b) alpha) w, b)
    | None =>
      let c := fresh (dom (composers w)) in
      (emit (ApplyAlphaMap c (Bitmap.image_ b) alpha)
         (emit (NewComposer c)
            (set_composers (<[c := true]> (composers w)) w)),
       Bitmap.set_composer_ (Some c) b)
    end.
Proof.
  intros Hf Hr Ha. unfold Bitmap.handleAttach, Bitmap.getComposer_.
  rewrite Hf, Hr, Ha. cbn [negb orb].
  destruct (Bitmap.composer_ b); reflexivity.
Qed.

(** X11. [handleAttach] does nothing at all unless the flag is non-zero, the
    leaf is ready and an alpha-map filter is set.  When all three hold it
    applies the alpha map to the raw image through the leaf's composer, which
    it creates only if the leaf has none: the composer it creates is a new
    one, and a second [handleAttach] reuses it, creating nothing.  From then
    on the source image is the composer's output. *)
Theorem Bitmap_handleAttach_composer (flag : Z) (w : World) (b : Bitmap.t)
    (alpha : Image) :
  flag ≠ 0 →
  Bitmap.ready_ b = true →
  alphaMapFilter (Bitmap.base b) = Some alpha →
  let w1 := fst (Bitmap.handleAttach flag w b) in
  let b1 := snd (Bitmap.handleAttach flag w b) in
  ∃ c,
    Bitmap.composer_ b1 = Some c
    ∧ Bitmap.getSourceImage_ b1 = Some (Composer_getOutput c)
    ∧ Bitmap.getImage b1 = Bitmap.getImage b
    ∧ match Bitmap.composer_ b with
      | Some c0 =>
        c = c0 ∧ b1 = b
        ∧ trace w1 = trace w ++ [ApplyAlphaMap c (Bitmap.image_ b) alpha]
        ∧ composers w1 = composers w
      | None =>
        composers w !! c = None
        ∧ composers w1 = <[c := true]> (composers w)
        ∧ trace w1
          = trace w ++ [NewComposer c;
                        ApplyAlphaMap c (Bitmap.image_ b) alpha]
      end
    ∧ Bitmap.handleAttach flag w1 b1
      = (emit (ApplyAlphaMap c (Bitmap.image_ b) alpha) w1, b1)
    ∧ Bitmap.handleAttach 0 w1 b1 = (w1, b1).
Proof.
  intros Hflag Hr Ha. cbv zeta.
  assert (Hf : truthy flag = true).
  { unfold truthy. apply Z.eqb_neq in Hflag. rewrite Hflag. reflexivity. }
  rewrite (Bitmap_handleAttach_active flag w b alpha Hf Hr Ha).
  destruct (Bitmap.composer_ b) as [c0|] eqn:Hc; cbn -[fresh].
  - exists c0. unfold Bitmap.getSourceImage_. rewrite ?Hc.
    split; [first [exact Hc|reflexivity]|].
    split; [reflexivity|]. split; [reflexivity|].
    split; [repeat split|].
    split; [|reflexivity].
    rewrite (Bitmap_handleAttach_active flag _ b alpha Hf Hr Ha), Hc.
    reflexivity.
  - eexists. split; [reflexivity|]. split; [reflexivity|].
    split; [reflexivity|]. split.
    + split; [apply not_elem_of_dom, is_fresh|]. split; [reflexivity|].
      rewrite <- app_assoc. reflexivity.
    + split; [|reflexivity].
      rewrite (Bitmap_handleAttach_active flag _ _ alpha Hf); [reflexivity| |];
        assumption.
Qed.

Lemma Bitmap_handleDetach_spec (w : World) (b : Bitmap.t) :
  let w' := fst (Bitmap.handleDetach w b) in
  let b' := snd (Bitmap.handleDetach w b) in
  composers w'
    = match Bitmap.composer_ b with
      | Some c => <[c := false]> (composers w)
      | None => composers w
      end
  ∧ rects w' = rects w
  ∧ Bitmap.composer_ b' = None
  ∧ Bitmap.output_ b'
    = match Bitmap.getSourceImage_ b with
      | Some _ => None
      | None => Bitmap.output_ b
      end
  ∧ Bitmap.image_ b' = Bitmap.image_ b
  ∧ Bitmap.ready_ b' = Bitmap.ready_ b
  ∧ Bitmap.drawValues_ b' = Bitmap.drawValues_ b
  ∧ Bitmap.source_ b' = Bitmap.source_ b
  ∧ Bitmap.base b' = Bitmap.base b.
Proof.
  cbv zeta. unfold Bitmap.handleDetach, Bitmap.getSourceImage_.
  destruct b as [o nb [im|] rd dv [c|] [out|] src hp hr]; cbn; repeat split.
Qed.

Lemma Bitmap_handleDetach_trace (w : World) (b : Bitmap.t) :
  Bitmap.output_ b = None →
  uncaches (drop (length (trace w)) (trace (fst (Bitmap.handleDetach w b))))
  = [].
Proof.
  unfold Bitmap.handleDetach, Bitmap.getSourceImage_.
  destruct b as [o nb [im|] rd dv [c|] out src hp hr]; cbn; intros ->; cbn;
    rewrite ?drop_app_length, ?drop_all; reflexivity.
Qed.

(** X12. [handleDetach] asks the renderer to drop the source image only when
    the leaf has both a source image and a renderer, and the image it names
    is the composer's output when there is a composer, not the raw image.  It
    then destroys the composer, if any.  These are its only calls, in this
    order; rectangles, Graphics objects, image, readiness, buffer and
    bounding box are kept. *)
Theorem Bitmap_handleDetach_calls (w : World) (b : Bitmap.t) :
  let w' := fst (Bitmap.handleDetach w b) in
  let b' := snd (Bitmap.handleDetach w b) in
  trace w'
    = trace w
      ++ match Bitmap.composer_ b, Bitmap.image_ b, Bitmap.output_ b with
         | Some c, _, Some r => [RendererUncache r (Composer_getOutput c)]
         | None, Some image, Some r => [RendererUncache r image]
         | _, _, _ => []
         end
      ++ match Bitmap.composer_ b with
         | Some c => [ComposerDestroy c]
         | None => []
         end
  ∧ composers w'
    = match Bitmap.composer_ b with
      | Some c => <[c := false]> (composers w)
      | None => composers w
      end
  ∧ rects w' = rects w ∧ gfx w' = gfx w
  ∧ Bitmap.composer_ b' = None
  ∧ Bitmap.output_ b'
    = match Bitmap.getSourceImage_ b with
      | Some _ => None
      | None => Bitmap.output_ b
      end
  ∧ Bitmap.getImage b' = Bitmap.getImage b
  ∧ Bitmap.ready_ b' = Bitmap.ready_ b
  ∧ Bitmap.drawValues_ b' = Bitmap.drawValues_ b
  ∧ Bitmap.source_ b' = Bitmap.source_ b
  ∧ Bitmap.base b' = Bitmap.base b.
Proof.
  cbv zeta. unfold Bitmap.handleDetach, Bitmap.getSourceImage_, Bitmap.getImage.
  destruct b as [o nb [im|] rd dv [c|] [out|] src hp hr]; cbn;
    rewrite <- ?app_assoc, ?app_nil_r; repeat split.
Qed.

End BitmapLifecycle.

(** ** Bitmap: replacing and removing the image *)

Section BitmapImage.
Context `{Collaborators}.

(** X13. After [setImage(image)], [getImage()] is that image and the leaf is
    ready exactly when the image is not null and has a non-zero width; a leaf
    that is not ready is invisible and has no composer.  The composer the
    leaf had is destroyed and never kept, and the renderer pointer is null
    if there was a source image.  The bounding box, the buffer and the
    source rectangle are not adapted to the new image: they stay as they
    were. *)
Theorem Bitmap_setImage_effect (image : option Image) (w : World)
    (b : Bitmap.t) :
  let w' := fst (Bitmap.setImage image w b) in
  let b' := snd (Bitmap.setImage image w b) in
  Bitmap.getImage b' = image
  ∧ Bitmap.ready_ b'
    = match image with
      | Some i => truthy (image_width i)
      | None => false
      end
  ∧ (Bitmap.ready_ b' = false →
       Bitmap.isVisible b' = false ∧ Bitmap.composer_ b' = None)
  ∧ Bitmap.base b' = Bitmap.base b
  ∧ Bitmap.drawValues_ b' = Bitmap.drawValues_ b
  ∧ Bitmap.source_ b' = Bitmap.source_ b
  ∧ rects w' = rects w
  ∧ (∀ c, Bitmap.composer_ b = Some c →
       composers w' !! c = Some false ∧ Bitmap.composer_ b' ≠ Some c)
  ∧ (is_Some (Bitmap.getSourceImage_ b) → Bitmap.output_ b' = None).
Proof.
  cbv zeta. unfold Bitmap.setImage.
  pose proof (Bitmap_handleDetach_spec w b)
    as (Hcomp & Hrects & Hc1 & Hout & Him & Hrd & Hdv & Hsrc & Hbase).
  destruct (Bitmap.handleDetach w b) as [w1 b1]. cbn [fst snd] in *.
  set (rd := match image with
             | Some i => truthy (image_width i)
             | None => false
             end).
  set (b3 := Bitmap.set_ready_ rd (Bitmap.set_image_ image b1)).
  assert (Hold : ∀ c, Bitmap.composer_ b = Some c →
                      composers w1 !! c = Some false).
  { intros c Hc. rewrite Hcomp, Hc. apply lookup_insert_eq. }
  destruct rd eqn:Hrd3;
    [destruct (alphaMapFilter (Bitmap.base b3)) as [alpha|] eqn:Ha|].
  - rewrite (Bitmap_handleAttach_active 1 w1 b3 alpha eq_refl eq_refl Ha).
    change (Bitmap.composer_ b3) with (Bitmap.composer_ b1). rewrite Hc1.
    cbn -[fresh]. rewrite Hrects.
    split_and!; try assumption; try reflexivity.
    + intros Hfalse. discriminate Hfalse.
    + intros c Hc. specialize (Hold c Hc).
      assert (Hne : fresh (dom (composers w1)) ≠ c).
      { intros <-. pose proof (is_fresh (dom (composers w1))) as Hfr.
        apply Hfr. apply elem_of_dom. eauto. }
      split; [rewrite lookup_insert_ne by exact Hne; exact Hold|congruence].
    + intros [i Hi]. rewrite Hi in Hout. exact Hout.
  - rewrite Bitmap_handleAttach_inactive by auto.
    cbn. split_and!; try assumption; try reflexivity.
    + intros Hfalse. discriminate Hfalse.
    + intros c Hc. split; [auto|]. rewrite Hc1. discriminate.
    + intros [i Hi]. rewrite Hi in Hout. exact Hout.
  - rewrite Bitmap_handleAttach_inactive by auto.
    cbn. split_and!; try assumption; try reflexivity.
    + intros _. split; [reflexivity|exact Hc1].
    + intros c Hc. split; [auto|]. rewrite Hc1. discriminate.
    + intros [i Hi]. rewrite Hi in Hout. exact Hout.
Qed.

(** X14. After [removeAllChildren] the leaf has no image, no source
    rectangle and no composer, is not ready and not visible, and keeps its
    buffer and bounding box.  Doing it again changes nothing and calls
    nothing, and no [handleAttach] revives the leaf. *)
Theorem Bitmap_removeAllChildren_effect (flag : Z) (w : World)
    (b : Bitmap.t) :
  let w' := fst (Bitmap.removeAllChildren w b) in
  let b' := snd (Bitmap.removeAllChildren w b) in
  Bitmap.getImage b' = None
  ∧ Bitmap.getSourceRect b' = None
  ∧ Bitmap.getSourceImage_ b' = None
  ∧ Bitmap.composer_ b' = None
  ∧ Bitmap.ready_ b' = false
  ∧ Bitmap.isVisible b' = false
  ∧ Bitmap.drawValues_ b' = Bitmap.drawValues_ b
  ∧ Bitmap.base b' = Bitmap.base b
  ∧ w' = fst (Bitmap.handleDetach w b)
  ∧ Bitmap.removeAllChildren w' b' = (w', b')
  ∧ Bitmap.handleAttach flag w' b' = (w', b').
Proof.
  cbv zeta.
  assert (Heq : Bitmap.removeAllChildren w b
                = (fst (Bitmap.handleDetach w b),
                   Bitmap.set_ready_ false
                     (Bitmap.set_source_ None
                        (Bitmap.set_image_ None
                           (snd (Bitmap.handleDetach w b)))))).
  { unfold Bitmap.removeAllChildren.
    destruct (Bitmap.handleDetach w b); reflexivity. }
  rewrite Heq. cbn [fst snd].
  pose proof (Bitmap_handleDetach_spec w b)
    as (_ & _ & Hc1 & _ & _ & _ & Hdv & _ & Hbase).
  cbv zeta in Hc1, Hdv, Hbase.
  set (w1 := fst (Bitmap.handleDetach w b)) in *.
  set (b1 := snd (Bitmap.handleDetach w b)) in *.
  unfold Bitmap.getSourceImage_, Bitmap.isVisible. cbn. rewrite Hc1.
  split_and!; try assumption; try reflexivity.
  - unfold Bitmap.removeAllChildren.
    rewrite Bitmap_handleDetach_released by (cbn; auto).
    reflexivity.
  - apply Bitmap_handleAttach_inactive. right. left. reflexivity.
Qed.

End BitmapImage.

(** ** Bitmap: image events *)

Section BitmapEvents.
Context `{Collaborators}.

Lemma Bitmap_handleAttach_calls (flag : Z) (w : World) (b : Bitmap.t) :
  ∃ calls,
    trace (fst (Bitmap.handleAttach flag w b)) = trace w ++ calls
    ∧ removals calls = []
    ∧ uncaches calls = [].
Proof.
  unfold Bitmap.handleAttach, Bitmap.getComposer_.
  destruct (_ || _); [exists []; rewrite app_nil_r; auto|].
  destruct (alphaMapFilter _); [|exists []; rewrite app_nil_r; auto].
  destruct (Bitmap.composer_ b); cbn -[fresh].
  - eexists [_]. repeat split.
  - eexists [_; _]. rewrite <- app_assoc. repeat split.
Qed.

(** X15. A "load" event on a leaf without source rectangle (a leaf built
    without a value, or one whose children were removed) is answered by one
    [removeListeners] call and nothing else: the leaf drops its image but is
    marked ready, so that [isVisible] answers what the base class answers;
    buffer and bounding box stay as they were. *)
Theorem Bitmap_load_without_source (image : Image) (w : World)
    (b : Bitmap.t) :
  Bitmap.source_ b = None →
  ∃ b',
    Bitmap.handleEvent "load" image w b
    = Return (emit (RemoveListeners image) w, b')
    ∧ Bitmap.ready_ b' = true
    ∧ Bitmap.getImage b' = None
    ∧ Bitmap.getSourceRect b' = None
    ∧ Bitmap.isVisible b' = DisplayObject_isVisible (Bitmap.base b)
    ∧ Bitmap.drawValues_ b' = Bitmap.drawValues_ b
    ∧ Bitmap.base b' = Bitmap.base b
    ∧ Bitmap.composer_ b' = Bitmap.composer_ b.
Proof.
  intros Hsrc. unfold Bitmap.handleEvent.
  destruct b as [o nb im rd dv co out src hp hr]. cbn in Hsrc. subst src.
  eexists. split; [reflexivity|]. repeat split.
Qed.

(** X16. A "load" event on a leaf with a source rectangle returns.  It
    writes the image's width and height into that rectangle object, whose x
    and y it keeps, and touches no other rectangle; it rewrites the first
    eight slots of the buffer to the single-precision roundings of [0, 0,
    width, height, offsetX, offsetY, width, height], slots 0 and 1 being 0
    whatever the rectangle's x and y,
    and keeps the slots behind them; the bounding box becomes (0, 0, width,
    height) and the leaf ready.  The leaf's image is not replaced by the
    event's target, and [removeListeners] is called exactly once. *)
Theorem Bitmap_load_resizes_source (image : Image) (w : World)
    (b : Bitmap.t) (src : loc) :
  Bitmap.source_ b = Some src →
  buffer_sized b →
  ∃ w' b' dv dv',
    Bitmap.handleEvent "load" image w b = Return (w', b')
    ∧ rects w'
      = <[src := {| rx := rx (rects w !!! src); ry := ry (rects w !!! src);
                    rwidth := image_width image;
                    rheight := image_height image |}]> (rects w)
    ∧ Bitmap.ready_ b' = true
    ∧ Bitmap.getImage b' = Bitmap.getImage b
    ∧ Bitmap.getSourceRect b' = Some src
    ∧ boundingBox (Bitmap.base b')
      = {| minX := 0; minY := 0; maxX := image_width image;
           maxY := image_height image |}
    ∧ Bitmap.drawValues_ b = Some dv
    ∧ Bitmap.drawValues_ b' = Some dv'
    ∧ take 8 dv'
      = map fround
          [0; 0; image_width image; image_height image;
           offsetX (Bitmap.nominalBounds b) w' (image_width image);
           offsetY (Bitmap.nominalBounds b) w' (image_height image);
           image_width image; image_height image]
    ∧ drop 8 dv' = drop 8 dv
    ∧ removals (drop (length (trace w)) (trace w'))
      = [RemoveListeners image].
Proof.
  intros Hsrc Hsized.
  destruct (Bitmap.drawValues_ b) as [dv|] eqn:Hdv;
    [|unfold buffer_sized in Hsized; rewrite Hdv in Hsized; congruence].
  rewrite (handleEvent_load image w b src dv Hsrc Hdv). cbv zeta.
  match goal with
  | |- context [Bitmap.handleAttach ?f ?w0 ?b0] =>
      pose proof (handleAttach_fields f w0 b0)
        as (Hd & Hs & Hi & Hr & Hn & Hb & _ & Hrects);
      pose proof (Bitmap_handleAttach_calls f w0 b0)
        as (calls & Htr & Hrem & _);
      destruct (Bitmap.handleAttach f w0 b0) as [w' b'] eqn:Hatt
  end.
  cbn [fst snd] in *.
  exists w', b', dv. eexists.
  split; [reflexivity|]. split; [exact Hrects|].
  split; [rewrite Hr; reflexivity|].
  split; [unfold Bitmap.getImage; rewrite Hi; reflexivity|].
  split; [unfold Bitmap.getSourceRect; rewrite Hs; exact Hsrc|].
  split; [rewrite Hb; reflexivity|].
  split; [reflexivity|]. split; [rewrite Hd; reflexivity|].
  unfold buffer_sized in Hsized. rewrite Hdv in Hsized.
  do 8 (destruct dv as [|? dv]; [cbn in Hsized; lia|]).
  cbn [insert list_insert]. rewrite align_slots.
  cbn [insert list_insert take drop].
  split.
  { cbn [map]. change (fround 0) with (F32 0).
    unfold offsetX, offsetY. destruct (Bitmap.nominalBounds b);
      rewrite ?Hrects; reflexivity. }
  split; [reflexivity|].
  rewrite Htr.
  change (trace (set_rects _ (emit (RemoveListeners image) w)))
    with (trace w ++ [RemoveListeners image]).
  rewrite <- app_assoc, drop_app_length.
  cbn. unfold removals in Hrem. rewrite Hrem. reflexivity.
Qed.

(** X17. Constructing a Bitmap from a URL and then giving it the "load" event
    of the decoded image leads to the same buffer, bounding box, source
    rectangle and rectangle store as constructing it from the decoded image;
    the leaf is then ready, and its image is still the one the factory
    handed out. *)
Theorem Bitmap_url_then_load (nominal : option loc) (path : string)
    (image : Image) (w : World) :
  let w1 := fst (Bitmap.new nominal (Some (Bitmap.VString path)) w) in
  let b1 := snd (Bitmap.new nominal (Some (Bitmap.VString path)) w) in
  let w3 := fst (Bitmap.new nominal (Some (Bitmap.VImage image)) w) in
  let b3 := snd (Bitmap.new nominal (Some (Bitmap.VImage image)) w) in
  ∃ w2 b2,
    Bitmap.handleEvent "load" image w1 b1 = Return (w2, b2)
    ∧ Bitmap.drawValues_ b2 = Bitmap.drawValues_ b3
    ∧ boundingBox (Bitmap.base b2) = boundingBox (Bitmap.base b3)
    ∧ Bitmap.getSourceRect b2 = Bitmap.getSourceRect b3
    ∧ rects w2 = rects w3
    ∧ Bitmap.ready_ b2 = true
    ∧ Bitmap.getImage b2 = Some (ImageFactory_get path).
Proof.
  cbv zeta. unfold Bitmap.new. rewrite !initializeBitmap_unfold.
  cbv zeta. cbn [Bitmap.source_ fst snd resolve].
  change (rects (emit (FactoryGet path) w)) with (rects w).
  set (l := fresh (dom (rects w))).
  match goal with
  | |- context [Bitmap.handleEvent "load" image ?w1 ?b1] =>
      rewrite (handleEvent_load image w1 b1 l _ eq_refl eq_refl)
  end.
  cbv zeta.
  match goal with
  | |- context [Bitmap.handleAttach ?f ?w0 ?b0] =>
      pose proof (handleAttach_fields f w0 b0)
        as (Hd & Hs & Hi & Hr & _ & Hb & _ & Hrects);
      destruct (Bitmap.handleAttach f w0 b0) as [w2 b2]
  end.
  cbn [fst snd] in *. exists w2, b2. split; [reflexivity|].
  assert (Hmap : rects w2
                 = <[l := {| rx := 0; ry := 0; rwidth := image_width image;
                             rheight := image_height image |}]> (rects w)).
  { rewrite Hrects. cbn. rewrite lookup_total_insert_eq. cbn.
    apply insert_insert_eq. }
  split.
  { rewrite Hd. cbn [Bitmap.set_base Bitmap.set_drawValues_ Bitmap.drawValues_
                     Bitmap.set_ready_ Bitmap.nominalBounds insert
                     list_insert map].
    rewrite align_slots. cbn [insert list_insert].
    cbn [rects set_rects emit] in *.
    rewrite !lookup_total_insert_eq. cbn [rx ry rwidth rheight].
    rewrite insert_insert_eq. reflexivity. }
  split; [rewrite Hb; reflexivity|].
  split; [unfold Bitmap.getSourceRect; rewrite Hs; reflexivity|].
  split; [exact Hmap|].
  split; [rewrite Hr; reflexivity|].
  unfold Bitmap.getImage. rewrite Hi. reflexivity.
Qed.

End BitmapEvents.

(** ** Bitmap: what every leaf satisfies *)

Section BitmapInvariants.
Context `{Collaborators}.

Lemma inv_handleDetach (w : World) (b : Bitmap.t) :
  Bitmap_inv (w, b) → Bitmap_inv (Bitmap.handleDetach w b).
Proof.
  unfold Bitmap_inv, buffer_sized, Bitmap.handleDetach,
    Bitmap.getSourceImage_.
  destruct b as [o nb im rd dv co out src hp hr]. cbn.
  intros (Hs & -> & Hc & Hm).
  destruct co as [c|], im as [i|]; cbn; split_and!; try assumption;
    try reflexivity; intros c' Hc'; discriminate Hc'.
Qed.

Lemma inv_handleAttach (flag : Z) (w : World) (b : Bitmap.t) :
  Bitmap_inv (w, b) → Bitmap_inv (Bitmap.handleAttach flag w b).
Proof.
  unfold Bitmap_inv, buffer_sized, Bitmap.handleAttach, Bitmap.getComposer_.
  destruct b as [o nb im rd dv co out src hp hr]. cbn.
  intros (Hs & -> & Hc & Hm).
  destruct (_ || _); [cbn; split_and!; assumption || reflexivity|].
  destruct (alphaMapFilter o); [|cbn; split_and!; assumption || reflexivity].
  destruct co as [c|]; cbn -[fresh]; split_and!; try assumption;
    try reflexivity.
  intros c [= <-]. apply lookup_insert_eq.
Qed.

Lemma inv_image_ready (image : option Image) (rd : bool) (w : World)
    (b : Bitmap.t) :
  Bitmap_inv (w, b) →
  Bitmap_inv (w, Bitmap.set_ready_ rd (Bitmap.set_image_ image b)).
Proof. exact (λ Hinv, Hinv). Qed.

Lemma inv_initializeBitmap_ (value : Bitmap.Value) (w : World)
    (b : Bitmap.t) :
  Bitmap_inv (w, b) → Bitmap_inv (Bitmap.initializeBitmap_ value w b).
Proof.
  rewrite initializeBitmap_unfold. cbv zeta.
  unfold Bitmap_inv, buffer_sized. cbn -[fresh].
  intros (Hs & Hout & Hc & Hm).
  split_and!; try assumption.
  - right. reflexivity.
  - intros c Hco. specialize (Hc c Hco).
    destruct value, (Bitmap.source_ b); exact Hc.
Qed.

Lemma inv_new (nominal : option loc) (value : option Bitmap.Value)
    (w : World) :
  Bitmap_inv (Bitmap.new nominal value w).
Proof.
  unfold Bitmap.new.
  assert (Hblank : Bitmap_inv
            (w, {| Bitmap.base := DisplayObject_new;
                   Bitmap.nominalBounds := nominal; Bitmap.image_ := None;
                   Bitmap.ready_ := false; Bitmap.drawValues_ := None;
                   Bitmap.composer_ := None; Bitmap.output_ := None;
                   Bitmap.source_ := None; Bitmap.hitTestPoint_ := None;
                   Bitmap.hitTestResult_ := None |})).
  { unfold Bitmap_inv, buffer_sized. cbn.
    split_and!; try reflexivity; intros; discriminate. }
  destruct value as [v|]; [apply inv_initializeBitmap_|]; exact Hblank.
Qed.

Lemma inv_setSourceRect rectangle w b w' b' :
  Bitmap.setSourceRect rectangle w b = Return (w', b') →
  Bitmap_inv (w, b) → Bitmap_inv (w', b').
Proof.
  unfold Bitmap_inv, buffer_sized, Bitmap.setSourceRect.
  destruct rectangle as [r|]; [|discriminate].
  destruct b as [o nb im rd [dv|] co out src hp hr]; cbn.
  - intros Heq (Hs & -> & Hc & Hm).
    rewrite TypedArray_set_fits in Heq by (cbn; lia).
    cbn in Heq. injection Heq as <- <-. cbn.
    split_and!; try assumption; try reflexivity.
    rewrite length_drop. lia.
  - intros [= <- <-] (Hs & -> & Hc & Hm). cbn.
    split_and!; try assumption; try reflexivity.
    left. reflexivity.
Qed.

Lemma inv_handleEvent type image w b w' b' :
  Bitmap.handleEvent type image w b = Return (w', b') →
  Bitmap_inv (w, b) → Bitmap_inv (w', b').
Proof.
  intros Heq Hinv.
  destruct (Bitmap.source_ b) as [src|] eqn:Hsrc,
           (String.eqb type "load") eqn:Hty.
  - apply String.eqb_eq in Hty. subst type.
    destruct Hinv as (Hs & Hout & Hc & Hm). cbn [fst snd] in *.
    destruct (Bitmap.drawValues_ b) as [dv|] eqn:Hdv;
      [|unfold buffer_sized in Hs; rewrite Hdv in Hs; congruence].
    rewrite (handleEvent_load image w b src dv Hsrc Hdv) in Heq.
    cbv zeta in Heq. injection Heq as Heq.
    rewrite <- Heq. apply inv_handleAttach.
    unfold Bitmap_inv, buffer_sized.
    cbn [fst snd Bitmap.set_base Bitmap.set_drawValues_ Bitmap.set_ready_
         Bitmap.drawValues_ Bitmap.base Bitmap.output_ Bitmap.composer_
         Bitmap.hitTestPoint_ Bitmap.hitTestResult_ Bitmap.source_
         composers set_rects emit].
    unfold buffer_sized in Hs. rewrite Hdv in Hs.
    do 8 (destruct dv as [|? dv]; [cbn in Hs; lia|]).
    cbn [insert list_insert]. rewrite align_slots.
    cbn [insert list_insert].
    split_and!; assumption.
  - apply String.eqb_neq in Hty.
    rewrite handleEvent_not_load in Heq by exact Hty.
    injection Heq as <- <-. exact Hinv.
  - apply String.eqb_eq in Hty. subst type.
    unfold Bitmap.handleEvent in Heq.
    destruct b as [o nb im rd dv co out src hp hr]. cbn in Hsrc. subst src.
    cbn in Heq. injection Heq as <- <-. exact Hinv.
  - apply String.eqb_neq in Hty.
    rewrite handleEvent_not_load in Heq by exact Hty.
    injection Heq as <- <-. exact Hinv.
Qed.

Lemma inv_removeAllChildren (w : World) (b : Bitmap.t) :
  Bitmap_inv (w, b) → Bitmap_inv (Bitmap.removeAllChildren w b).
Proof.
  intros Hinv. apply inv_handleDetach in Hinv.
  unfold Bitmap.removeAllChildren.
  destruct (Bitmap.handleDetach w b) as [w1 b1].
  unfold Bitmap_inv, buffer_sized in *.
  cbn in *. destruct Hinv as (Hs & Hout & Hc & Hm).
  split_and!; try assumption.
  destruct (Bitmap.drawValues_ b1); [exact Hs|reflexivity].
Qed.

Lemma inv_hitTestObject point types bubble (w : World) (b : Bitmap.t) :
  Bitmap_inv (w, b) →
  Bitmap_inv (fst (Bitmap.hitTestObject point types bubble w b)).
Proof.
  unfold Bitmap.hitTestObject.
  destruct (DisplayObject_hitTestObject _ _ _ _); [|exact (λ Hinv, Hinv)].
  assert (Hsample : ∀ r q, Bitmap_inv (w, b) →
            ∀ w', composers w' = composers w →
            Bitmap_inv (w', Bitmap.set_hitTestResult_ r
                              (Bitmap.set_hitTestPoint_ (Some q) b))).
  { intros r q (Hs & Hout & Hc & Hm) w' Hw'.
    unfold Bitmap_inv. cbn. rewrite Hw'.
    split_and!; try assumption. discriminate. }
  intros Hinv.
  destruct (Bitmap.hitTestPoint_ b) as [last|];
    [destruct (_ <=? 4); [exact Hinv|]|];
    cbn [fst]; apply Hsample; try assumption;
    destruct (hitTestContext_ w); reflexivity.
Qed.

Lemma inv_paintObject (w : World) (b : Bitmap.t) (dv dv' : list float32) :
  Bitmap.drawValues_ b = Some dv →
  length dv' = length dv →
  Bitmap_inv (w, b) → Bitmap_inv (w, Bitmap.set_drawValues_ (Some dv') b).
Proof.
  unfold Bitmap_inv, buffer_sized.
  destruct b as [o nb im rd dv0 co out src hp hr]. cbn.
  intros -> Hlen (Hs & Hout & Hc & Hm). rewrite Hlen.
  split_and!; assumption.
Qed.

Lemma inv_step (x y : World * Bitmap.t) :
  Bitmap_step x y → Bitmap_inv x → Bitmap_inv y.
Proof.
  destruct 1 as [value w b|image w b|rectangle w b w' b' Heq
                 |type image w b w' b' Heq|flag w b|w b|w b
                 |point types bubble w b|w b dv dv' Hdv Hlen]; intros Hinv.
  - apply inv_initializeBitmap_, Hinv.
  - unfold Bitmap.setImage. apply inv_handleDetach in Hinv.
    destruct (Bitmap.handleDetach w b) as [w1 b1].
    apply inv_handleAttach, inv_image_ready, Hinv.
  - eapply inv_setSourceRect; eassumption.
  - eapply inv_handleEvent; eassumption.
  - apply inv_handleAttach, Hinv.
  - apply inv_handleDetach, Hinv.
  - apply inv_removeAllChildren, Hinv.
  - apply inv_hitTestObject, Hinv.
  - eapply inv_paintObject; eassumption.
Qed.

Lemma reachable_inv (x : World * Bitmap.t) :
  Bitmap_reachable x → Bitmap_inv x.
Proof.
  induction 1 as [nominal value w|x y _ IH Hstep].
  - apply inv_new.
  - eapply inv_step; eassumption.
Qed.

Lemma box_in_buffer_initializeBitmap_ (value : Bitmap.Value) (w : World)
    (b : Bitmap.t) :
  box_in_buffer (snd (Bitmap.initializeBitmap_ value w b)).
Proof.
  rewrite initializeBitmap_unfold. cbv zeta. unfold box_in_buffer.
  cbn -[fresh fround]. intros dv [= <-]. repeat split.
Qed.

Lemma box_in_buffer_setSourceRect (r : loc) (w w' : World)
    (b b' : Bitmap.t) :
  Bitmap.setSourceRect (Some r) w b = Return (w', b') →
  buffer_sized b →
  box_in_buffer b'.
Proof.
  unfold buffer_sized, box_in_buffer, Bitmap.setSourceRect.
  destruct b as [o nb im rd [dv|] co out src hp hr]; cbn -[fround].
  - intros Heq Hs.
    rewrite TypedArray_set_fits in Heq by (cbn; lia).
    cbn -[fround] in Heq. injection Heq as <- <-. cbn -[fround].
    intros dv' [= <-]. repeat split.
  - intros [= <- <-] _. cbn -[fround]. intros dv' [= <-]. repeat split.
Qed.

Lemma box_in_buffer_load (image : Image) (w w' : World) (b b' : Bitmap.t)
    (src : loc) :
  Bitmap.source_ b = Some src →
  buffer_sized b →
  Bitmap.handleEvent "load" image w b = Return (w', b') →
  box_in_buffer b'.
Proof.
  intros Hsrc Hs.
  destruct (Bitmap.drawValues_ b) as [dv|] eqn:Hdv;
    [|unfold buffer_sized in Hs; rewrite Hdv in Hs; congruence].
  rewrite (handleEvent_load image w b src dv Hsrc Hdv). cbv zeta.
  match goal with
  | |- context [Bitmap.handleAttach ?f ?w0 ?b0] =>
      pose proof (handleAttach_fields f w0 b0)
        as (Hd & _ & _ & _ & _ & Hb & _);
      destruct (Bitmap.handleAttach f w0 b0) as [w2 b2]
  end.
  cbn [fst snd] in *. intros [= <- <-].
  unfold box_in_buffer. rewrite Hd, Hb.
  cbn [Bitmap.set_base Bitmap.set_drawValues_ Bitmap.set_ready_
       Bitmap.drawValues_ Bitmap.base].
  unfold buffer_sized in Hs. rewrite Hdv in Hs.
  do 8 (destruct dv as [|? dv]; [cbn in Hs; lia|]).
  cbn [insert list_insert]. rewrite align_slots.
  cbn [insert list_insert].
  intros dv' [= <-]. repeat split.
Qed.

End BitmapInvariants.

Section BitmapReachable.
Context `{Collaborators}.

(** X18. Every Bitmap that the constructor, the methods and the renderer's
    writes into the buffer it is handed can produce has a buffer of 8 or 12
    slots, or none and then no source rectangle either, so that
    [setSourceRect] with a rectangle always returns on such a leaf.  Right
    after [setSourceRect], after [initializeBitmap_] and after a "load" event
    on a leaf with a source rectangle, the bounding box starts at (0, 0) and
    slots 6 and 7 of the buffer hold its width and height rounded to single
    precision. *)
Theorem Bitmap_reachable_buffer (w : World) (b : Bitmap.t) (r : loc) :
  Bitmap_reachable (w, b) →
  buffer_sized b
  ∧ (∃ b', Bitmap.setSourceRect (Some r) w b = Return (w, b')
           ∧ box_in_buffer b')
  ∧ (∀ value, box_in_buffer (snd (Bitmap.initializeBitmap_ value w b)))
  ∧ (∀ image src, Bitmap.source_ b = Some src →
       ∃ w' b', Bitmap.handleEvent "load" image w b = Return (w', b')
                ∧ box_in_buffer b').
Proof.
  intros Hreach. apply reachable_inv in Hreach.
  destruct Hreach as (Hs & _). cbn [fst snd] in *.
  split; [exact Hs|]. split; [|split].
  - assert (Hret : ∃ b', Bitmap.setSourceRect (Some r) w b = Return (w, b')).
    { unfold buffer_sized in Hs. unfold Bitmap.setSourceRect.
      destruct b as [o nb im rd [dv|] co out src hp hr]; cbn in *.
      - rewrite TypedArray_set_fits by (cbn; lia). cbn. eauto.
      - eauto. }
    destruct Hret as (b' & Hret). exists b'. split; [exact Hret|].
    exact (box_in_buffer_setSourceRect r w w b b' Hret Hs).
  - intros value. apply box_in_buffer_initializeBitmap_.
  - intros image src Hsrc.
    destruct (Bitmap.handleEvent "load" image w b) as [[w' b']|e] eqn:Hev.
    + exists w', b'. split; [reflexivity|].
      exact (box_in_buffer_load image w w' b b' src Hsrc Hs Hev).
    + destruct (Bitmap.drawValues_ b) as [dv|] eqn:Hdv;
        [|unfold buffer_sized in Hs; rewrite Hdv in Hs; congruence].
      rewrite (handleEvent_load image w b src dv Hsrc Hdv) in Hev.
      discriminate Hev.
Qed.

(** X19. On every Bitmap that the constructor and the methods can produce
    the renderer pointer is null, since nothing in this file sets it, so that
    [handleDetach] never asks a renderer to drop an image; the composer the
    leaf holds, if any, has been created and not destroyed; and a cached
    hit-test result comes with a memoized point. *)
Theorem Bitmap_reachable_resources (w : World) (b : Bitmap.t) :
  Bitmap_reachable (w, b) →
  Bitmap.output_ b = None
  ∧ (∀ c, Bitmap.composer_ b = Some c → composers w !! c = Some true)
  ∧ uncaches (drop (length (trace w))
                   (trace (fst (Bitmap.handleDetach w b)))) = []
  ∧ (Bitmap.hitTestPoint_ b = None → Bitmap.hitTestResult_ b = None).
Proof.
  intros Hreach. apply reachable_inv in Hreach.
  destruct Hreach as (_ & Hout & Hc & Hm). cbn [fst snd] in *.
  split; [exact Hout|]. split; [exact Hc|]. split; [|exact Hm].
  apply Bitmap_handleDetach_trace, Hout.
Qed.

(** X20. On every Bitmap that the constructor and the methods can produce,
    [handleEvent] returns for every event type and image, calls
    [removeListeners] exactly once whatever the outcome, and leaves the leaf
    ready exactly when the type is "load". *)
Theorem Bitmap_handleEvent_returns (type : string) (image : Image)
    (w : World) (b : Bitmap.t) :
  Bitmap_reachable (w, b) →
  ∃ w' b',
    Bitmap.handleEvent type image w b = Return (w', b')
    ∧ removals (drop (length (trace w)) (trace w')) = [RemoveListeners image]
    ∧ Bitmap.ready_ b' = String.eqb type "load"
    ∧ (Bitmap.isVisible b' = true → type = "load"%string).
Proof.
  intros Hreach. apply reachable_inv in Hreach.
  destruct Hreach as (Hs & _). cbn [fst snd] in Hs.
  destruct (String.eqb type "load") eqn:Hty.
  - apply String.eqb_eq in Hty. subst type.
    destruct (Bitmap.source_ b) as [src|] eqn:Hsrc.
    + destruct (Bitmap.drawValues_ b) as [dv|] eqn:Hdv;
        [|unfold buffer_sized in Hs; rewrite Hdv in Hs; congruence].
      rewrite (handleEvent_load image w b src dv Hsrc Hdv). cbv zeta.
      match goal with
      | |- context [Bitmap.handleAttach ?f ?w0 ?b0] =>
          pose proof (handleAttach_fields f w0 b0) as (_ & _ & _ & Hr & _);
          pose proof (Bitmap_handleAttach_calls f w0 b0)
            as (calls & Htr & Hrem & _);
          destruct (Bitmap.handleAttach f w0 b0) as [w' b']
      end.
      cbn [fst snd] in *. exists w', b'. split; [reflexivity|].
      split; [|split; [rewrite Hr; reflexivity|reflexivity]].
      rewrite Htr.
      change (trace (set_rects _ (emit (RemoveListeners image) w)))
        with (trace w ++ [RemoveListeners image]).
      rewrite <- app_assoc, drop_app_length.
      cbn. unfold removals in Hrem. rewrite Hrem. reflexivity.
    + unfold Bitmap.handleEvent.
      destruct b as [o nb im rd dv co out src hp hr]. cbn in Hsrc.
      subst src. cbn.
      eexists _, _. split; [reflexivity|].
      split; [|split; reflexivity].
      cbn. rewrite drop_app_length. reflexivity.
  - apply String.eqb_neq in Hty.
    rewrite handleEvent_not_load by exact Hty.
    eexists _, _. split; [reflexivity|]. split.
    + cbn. rewrite drop_app_length. reflexivity.
    + split; [reflexivity|]. unfold Bitmap.isVisible. cbn. discriminate.
Qed.

(** X21. [paintObject] draws exactly once, with the leaf's buffer, and what
    it draws is the source image: the raw image for a leaf without composer,
    the composer's output between an attach that applied an alpha map and the
    next detach, and the raw image again after that detach.  With a color
    matrix the draw is preceded by setting that matrix and followed by
    resetting it to null; without one these two calls are not made. *)
Theorem Bitmap_paintObject_draws (matrix : option loc) (flag : Z)
    (w : World) (b : Bitmap.t) (alpha : Image) :
  flag ≠ 0 →
  Bitmap.ready_ b = true →
  alphaMapFilter (Bitmap.base b) = Some alpha →
  Bitmap.composer_ b = None →
  let w1 := fst (Bitmap.handleAttach flag w b) in
  let b1 := snd (Bitmap.handleAttach flag w b) in
  let b2 := snd (Bitmap.handleDetach w1 b1) in
  Bitmap_paintObject None b
    = [DrawPartial (Bitmap.image_ b) (Bitmap.drawValues_ b)]
  ∧ (∃ c, composers w !! c = None
       ∧ Bitmap_paintObject None b1
         = [DrawPartial (Some (Composer_getOutput c)) (Bitmap.drawValues_ b)])
  ∧ Bitmap_paintObject None b2
    = [DrawPartial (Bitmap.image_ b) (Bitmap.drawValues_ b)]
  ∧ (∀ m, Bitmap_paintObject (Some m) b2
          = [SetColorMatrix (Some m);
             DrawPartial (Bitmap.image_ b) (Bitmap.drawValues_ b);
             SetColorMatrix None]).
Proof.
  intros Hflag Hr Ha Hc. cbv zeta.
  assert (Hf : truthy flag = true).
  { unfold truthy. apply Z.eqb_neq in Hflag. rewrite Hflag. reflexivity. }
  rewrite (Bitmap_handleAttach_active flag w b alpha Hf Hr Ha), Hc.
  cbv zeta. cbn [fst snd].
  match goal with
  | |- context [Bitmap.handleDetach ?w1 ?b1] =>
      pose proof (Bitmap_handleDetach_spec w1 b1)
        as (_ & _ & Hc2 & _ & Him2 & _ & Hd2 & _);
      destruct (Bitmap.handleDetach w1 b1) as [w2 b2]
  end.
  cbn [fst snd] in *.
  unfold Bitmap_paintObject, Bitmap.getSourceImage_.
  rewrite Hc, Hc2, Hd2, Him2. cbn -[fresh].
  split; [reflexivity|]. split.
  - eexists. split; [apply not_elem_of_dom, is_fresh|reflexivity].
  - split; [reflexivity|]. intros m. reflexivity.
Qed.

(** X22. The Bitmap's hit test does nothing when the base test misses.  In
    every case it leaves rectangles, Graphics objects, composers and all
    fields of the leaf but the memo alone.  The probe canvas is made at most
    once: with a canvas context in place it is kept and no canvas is
    created, and without one a query either does not probe, or creates the
    1x1 canvas with composite operation "copy" just before drawing the image
    and reading the pixel.  The answer is null, the base class's answer or
    the cached answer. *)
Theorem Bitmap_hitTestObject_frame (point : Point) (types : Z)
    (bubble : bool) (w : World) (b : Bitmap.t) :
  let object := DisplayObject_hitTestObject (Bitmap.base b) point types bubble in
  let w' := fst (fst (Bitmap.hitTestObject point types bubble w b)) in
  let b' := snd (fst (Bitmap.hitTestObject point types bubble w b)) in
  let r := snd (Bitmap.hitTestObject point types bubble w b) in
  (object = None → Bitmap.hitTestObject point types bubble w b = (w, b, None))
  ∧ rects w' = rects w ∧ gfx w' = gfx w ∧ composers w' = composers w
  ∧ Bitmap.base b' = Bitmap.base b
  ∧ Bitmap.getImage b' = Bitmap.getImage b
  ∧ Bitmap.getSourceRect b' = Bitmap.getSourceRect b
  ∧ Bitmap.drawValues_ b' = Bitmap.drawValues_ b
  ∧ Bitmap.ready_ b' = Bitmap.ready_ b
  ∧ Bitmap.composer_ b' = Bitmap.composer_ b
  ∧ match hitTestContext_ w with
    | Some c =>
      hitTestContext_ w' = Some c
      ∧ (trace w' = trace w
         ∨ trace w'
           = trace w
             ++ [DrawImage (Bitmap.image_ b) (- px (probe_local point w b))
                           (- py (probe_local point w b));
                 GetImageData])
    | None =>
      (hitTestContext_ w' = None ∧ trace w' = trace w)
      ∨ (hitTestContext_ w'
         = Some {| canvas_width := 1; canvas_height := 1;
                   globalCompositeOperation := "copy" |}
         ∧ trace w'
           = trace w
             ++ [CreateCanvas;
                 DrawImage (Bitmap.image_ b) (- px (probe_local point w b))
                           (- py (probe_local point w b));
                 GetImageData])
    end
  ∧ (r = None ∨ r = object ∨ r = Bitmap.hitTestResult_ b).
Proof.
  cbv zeta. unfold Bitmap.hitTestObject, probe_local. rewrite point_eta.
  destruct (DisplayObject_hitTestObject _ _ _ _) as [o|] eqn:Ho.
  - split; [discriminate|].
    destruct b as [o0 nb im rd dv co out src hp hr]. cbn.
    destruct hp as [last|]; [destruct (_ <=? 4)|];
      destruct (hitTestContext_ w) eqn:Hctx; cbn;
      rewrite ?Hctx, <- ?app_assoc;
      (split_and!; try reflexivity);
      try (destruct src; cbn; destruct (truthy _); auto; fail);
      try (destruct src; cbn; auto; fail); auto.
  - destruct (hitTestContext_ w) eqn:Hctx; cbn; rewrite ?Hctx;
      split_and!; auto.
Qed.

End BitmapReachable.

(** ** The further properties at concrete inputs *)

Section MoreExamples.
Local Existing Instance plain_stage.

Lemma Shape_handleAttach_caches_witness :
  Shape.graphics_ mask_shape = Some 1%positive
  ∧ 3 ≠ 0
  ∧ ∃ w' s',
      Shape.handleAttach 3 empty_world mask_shape = Return (w', s')
      ∧ trace w' = [GraphicsCache 1%positive 3; GraphicsCache 2%positive 3]
      ∧ cached (gfx w' !!! 2%positive) = true.
Proof.
  assert (Hflag : 3 ≠ 0) by discriminate.
  assert (Hbit : js_and 3 2 ≠ 0) by (vm_compute; discriminate).
  split; [reflexivity|]. split; [exact Hflag|].
  destruct (Shape_handleAttach_caches 3 empty_world mask_shape
              1%positive eq_refl Hflag)
    as (w' & s' & Hatt & _ & _ & Hset & _).
  destruct (Hset Hbit) as [Htr Hall].
  exists w', s'. split; [exact Hatt|]. split; [exact Htr|].
  apply Hall. right. left.
Defined.

Lemma Shape_addGraphics_appends_witness :
  Shape.graphics_ mask_shape = Some 1%positive
  ∧ js_and 3 2 ≠ 0
  ∧ held (Shape.addGraphics (Some 5%positive) mask_shape)
    = [1%positive; 2%positive; 5%positive]
  ∧ ∃ w1 s1,
      Shape.handleAttach 3 empty_world
        (Shape.addGraphics (Some 5%positive) mask_shape) = Return (w1, s1)
      ∧ cached (gfx w1 !!! 5%positive) = true
      ∧ cached (gfx (fst (Shape.handleDetach w1 s1)) !!! 5%positive) = false.
Proof.
  assert (Hflag : 3 ≠ 0) by discriminate.
  assert (Hbit : js_and 3 2 ≠ 0) by (vm_compute; discriminate).
  split; [reflexivity|]. split; [exact Hbit|].
  destruct (Shape_addGraphics_appends 5%positive 1%positive 3
              empty_world mask_shape eq_refl Hbit Hflag)
    as (_ & Hheld & _ & Hex).
  split; [exact Hheld|exact Hex].
Defined.

Lemma Shape_layout_with_graphics_witness :
  Shape.graphics_ mask_shape = Some 1%positive
  ∧ ∃ s' r,
      Shape.layout 1%positive None 2 0 1 dirty_graphics mask_shape
      = (emit (SuperLayout 2 0 1) dirty_graphics, s', r)
      ∧ r = 2
      ∧ dirty (Shape.base s') = 4
      ∧ boundingBox (Shape.base s')
        = {| minX := 0; minY := 0; maxX := 10; maxY := 10 |}.
Proof.
  split; [reflexivity|].
  destruct (Shape_layout_with_graphics 1%positive None 2 0 1
              dirty_graphics mask_shape 1%positive eq_refl)
    as (o & Hlay & _ & Hdirty).
  destruct (Hdirty eq_refl) as (_ & _ & Hbox & _).
  eexists _, _. split; [exact Hlay|]. cbn.
  split; [reflexivity|]. split.
  - injection Hlay as Ho. rewrite <- Ho. reflexivity.
  - exact Hbox.
Defined.

Lemma Shape_visible_paints_witness :
  Shape.isVisible two_graphics mask_shape = true
  ∧ Shape_paintObject mask_shape = Return [Paint 1%positive].
Proof.
  destruct (Shape_visible_paints two_graphics mask_shape)
    as [Hvis _].
  split; [reflexivity|].
  destruct (Hvis eq_refl) as (g & Hg & _ & _ & Hpaint).
  injection Hg as <-. exact Hpaint.
Defined.

Lemma Bitmap_handleAttach_composer_witness :
  Bitmap.ready_ filtered_bitmap = true
  ∧ alphaMapFilter (Bitmap.base filtered_bitmap) = Some image_10x10
  ∧ ∃ c,
      Bitmap.composer_ (snd (Bitmap.handleAttach 1 empty_world
                                                 filtered_bitmap)) = Some c
      ∧ trace (fst (Bitmap.handleAttach 1 empty_world filtered_bitmap))
        = [NewComposer c; ApplyAlphaMap c (Some image_64x32) image_10x10].
Proof.
  assert (Hflag : 1 ≠ 0) by discriminate.
  split; [reflexivity|]. split; [reflexivity|].
  destruct (Bitmap_handleAttach_composer 1 empty_world
              filtered_bitmap image_10x10 Hflag eq_refl eq_refl)
    as (c & Hc & _ & _ & Hnew & _).
  exists c. split; [exact Hc|]. exact (proj2 (proj2 Hnew)).
Defined.

Lemma Bitmap_load_without_source_witness :
  let b := snd (Bitmap.removeAllChildren empty_world filtered_bitmap) in
  Bitmap.source_ b = None
  ∧ ∃ b',
      Bitmap.handleEvent "load" image_64x32 empty_world b
      = Return (emit (RemoveListeners image_64x32) empty_world, b')
      ∧ Bitmap.ready_ b' = true
      ∧ Bitmap.getImage b' = None
      ∧ Bitmap.isVisible b' = true.
Proof.
  intros b. split; [reflexivity|].
  destruct (Bitmap_load_without_source image_64x32 empty_world b
              eq_refl) as (b' & Hev & Hr & Him & _ & Hvis & _).
  exists b'. split; [exact Hev|]. split; [exact Hr|]. split; [exact Him|].
  exact Hvis.
Defined.

Lemma Bitmap_load_resizes_source_witness :
  let w := one_rect {| rx := 5; ry := 6; rwidth := 7; rheight := 8 |} in
  let b := Bitmap.set_base (setBoundingBox 0 0 7 8 DisplayObject_new)
             (Bitmap.set_source_ (Some 1%positive)
                (Bitmap.set_drawValues_ (Some (map F32 [5; 6; 7; 8; 0; 0; 7; 8]))
                   (snd (Bitmap.new None None w)))) in
  Bitmap.setSourceRect (Some 1%positive) w (snd (Bitmap.new None None w))
  = Return (w, b)
  ∧ buffer_sized b
  ∧ ∃ w' b',
      Bitmap.handleEvent "load" image_10x10 w b = Return (w', b')
      ∧ rects w' !! 1%positive
        = Some {| rx := 5; ry := 6; rwidth := 10; rheight := 10 |}
      ∧ Bitmap.drawValues_ b'
        = Some (map F32 [0; 0; 10; 10; 0; 0; 10; 10]).
Proof.
  intros w b.
  assert (Hsized : buffer_sized b) by (left; reflexivity).
  split; [reflexivity|]. split; [exact Hsized|].
  destruct (Bitmap_load_resizes_source image_10x10 w b
              1%positive eq_refl Hsized)
    as (w' & b' & dv & dv' & Hev & Hrects & _ & _ & _ & _ & Hdv & Hdv'
        & Htake & Hdrop & _).
  exists w', b'. split; [exact Hev|]. split.
  - rewrite Hrects. apply lookup_insert_eq.
  - rewrite Hdv'. f_equal. rewrite <- (take_drop 8 dv'), Htake, Hdrop.
    injection Hdv as <-. reflexivity.
Defined.

Lemma Bitmap_reachable_buffer_witness :
  let x := Bitmap.new None (Some (Bitmap.VImage image_64x32)) empty_world in
  Bitmap_reachable x
  ∧ buffer_sized (snd x)
  ∧ ∃ b', Bitmap.setSourceRect (Some 1%positive) (fst x) (snd x)
          = Return (fst x, b')
          ∧ box_in_buffer b'.
Proof.
  intros x.
  assert (Hreach : Bitmap_reachable (fst x, snd x)).
  { rewrite <- surjective_pairing. apply reachable_new. }
  split; [apply reachable_new|].
  destruct (Bitmap_reachable_buffer (fst x) (snd x) 1%positive Hreach)
    as (Hs & Hset & _).
  split; [exact Hs|exact Hset].
Defined.

Lemma Bitmap_reachable_resources_witness :
  let n := Bitmap.new None (Some (Bitmap.VImage image_64x32)) empty_world in
  let x := Bitmap.setImage (Some image_10x10) (fst n) (snd n) in
  Bitmap_reachable x
  ∧ Bitmap.output_ (snd x) = None
  ∧ uncaches (drop (length (trace (fst x)))
                   (trace (fst (Bitmap.handleDetach (fst x) (snd x))))) = [].
Proof.
  intros n x.
  assert (Hreach : Bitmap_reachable x).
  { apply (reachable_step (fst n, snd n)).
    - rewrite <- surjective_pairing. apply reachable_new.
    - apply step_setImage. }
  split; [exact Hreach|].
  rewrite (surjective_pairing x) in Hreach.
  destruct (Bitmap_reachable_resources (fst x) (snd x) Hreach)
    as (Hout & _ & Hunc & _).
  split; [exact Hout|exact Hunc].
Defined.

Lemma Bitmap_handleEvent_returns_witness :
  let x := Bitmap.new None (Some (Bitmap.VString "a.png")) empty_world in
  Bitmap_reachable x
  ∧ Bitmap.ready_ (snd x) = false
  ∧ ∃ w' b',
      Bitmap.handleEvent "load" image_64x32 (fst x) (snd x) = Return (w', b')
      ∧ removals (drop (length (trace (fst x))) (trace w'))
        = [RemoveListeners image_64x32]
      ∧ Bitmap.ready_ b' = true.
Proof.
  intros x.
  assert (Hreach : Bitmap_reachable (fst x, snd x)).
  { rewrite <- surjective_pairing. apply reachable_new. }
  split; [apply reachable_new|]. split; [reflexivity|].
  destruct (Bitmap_handleEvent_returns "load" image_64x32
              (fst x) (snd x) Hreach) as (w' & b' & Hev & Hrem & Hr & _).
  exists w', b'. split; [exact Hev|]. split; [exact Hrem|exact Hr].
Defined.

Lemma Bitmap_paintObject_draws_witness :
  Bitmap.composer_ filtered_bitmap = None
  ∧ Bitmap_paintObject None filtered_bitmap
    = [DrawPartial (Some image_64x32)
                   (Some (map F32 [0; 0; 64; 32; 0; 0; 64; 32; 0; 0; 0; 0]))]
  ∧ ∃ c,
      Bitmap_paintObject None
        (snd (Bitmap.handleAttach 1 empty_world filtered_bitmap))
      = [DrawPartial (Some (Composer_getOutput c))
                     (Some (map F32 [0; 0; 64; 32; 0; 0; 64; 32; 0; 0; 0; 0]))].
Proof.
  assert (Hflag : 1 ≠ 0) by discriminate.
  destruct (Bitmap_paintObject_draws None 1 empty_world
              filtered_bitmap image_10x10 Hflag eq_refl eq_refl eq_refl)
    as (Hraw & (c & _ & Hcomposed) & _).
  split; [reflexivity|]. split; [exact Hraw|].
  exists c. exact Hcomposed.
Defined.

End MoreExamples.
